(** * django-autoapi: the scan / filter / confirm / generate pipeline

    A shallow embedding of the management command [autoapi_scan] and of its
    collaborators [llm_client], [prompts] and [config], followed by the
    properties the specification states about them.

    Conventions of the embedding.
    - A Python [str] is the list of its code points ([pystr]); literals of
      the source are written [py "..."].  An [int] is a [Z], a [float] a
      binary64 primitive float.
    - The file system is a finite map from paths to file contents; paths
      are in normal form and file operations always succeed (no [OSError]).
    - Every effect of the command is recorded, in program order, in a trace
      of events: writes to [self.stdout], [Path.write_text], [f.write] on the
      file opened in append mode, the call of [generate_code] with what it
      returned or raised, the read of the operator's answer.
    - The remote text-generation service is a parameter: it answers a call
      knowing everything that happened before it.
    - The blocks of [handle] that the specification names (selection, scan,
      estimate, generation phase) are definitions of their own, composed by
      [handle] in the order of the source. *)

From Stdlib Require Import ZArith String Ascii List Bool Lia.
From Stdlib Require Import Floats.
From stdpp Require Import base decidable option list gmap.

Import ListNotations.
Local Open Scope bool_scope.

Set Default Proof Using "Type".

(* Decimal literals denote, as in Python, the nearest binary64 value. *)
Set Warnings "-inexact-float".

(* ===================================================================== *)
(** ** Python strings *)
(* ===================================================================== *)

Module Py.

(** A [str] as the sequence of its Unicode code points. *)
Abbreviation pystr := (list N).

(** A literal of the source (ASCII) as a [str]. *)
Definition py (s : string) : pystr :=
  List.map N_of_ascii (list_ascii_of_string s).

(** Truth value of a [str]: the empty string is falsy. *)
Definition truthy (s : pystr) : bool :=
  match s with [] => false | _ :: _ => true end.

(** Truth value of an optional [str] ([None] is falsy). *)
Definition truthy_opt (o : option pystr) : bool :=
  match o with None => false | Some s => truthy s end.

(** [a or b] on an optional first operand. *)
Definition or_else (a : option pystr) (b : pystr) : pystr :=
  match a with
  | Some s => if truthy s then s else b
  | None => b
  end.

Definition str_eqb (a b : pystr) : bool := bool_decide (a = b).

(** [s.startswith(p)] *)
Fixpoint startswith (s p : pystr) {struct p} : bool :=
  match p, s with
  | [], _ => true
  | _ :: _, [] => false
  | c :: p', d :: s' => N.eqb c d && startswith s' p'
  end.

(** [s.endswith(p)] *)
Definition endswith (s p : pystr) : bool :=
  startswith (rev s) (rev p).

(** [ch.isspace()]: the code points CPython's [str.strip()] removes. *)
Definition isspace (c : N) : bool :=
  ((9 <=? c) && (c <=? 13) || (28 <=? c) && (c <=? 32)
   || (c =? 133) || (c =? 160) || (c =? 5760)
   || (8192 <=? c) && (c <=? 8202)
   || (c =? 8232) || (c =? 8233) || (c =? 8239) || (c =? 8287)
   || (c =? 12288))%N.

Fixpoint lstrip (s : pystr) : pystr :=
  match s with
  | [] => []
  | c :: s' => if isspace c then lstrip s' else s
  end.

Definition rstrip (s : pystr) : pystr := rev (lstrip (rev s)).

(** [s.strip()] *)
Definition strip (s : pystr) : pystr := rstrip (lstrip s).

(** [sep.join(parts)] *)
Fixpoint join (sep : pystr) (parts : list pystr) : pystr :=
  match parts with
  | [] => []
  | [p] => p
  | p :: rest => p ++ sep ++ join sep rest
  end.

(** The line feed. *)
Definition LF : pystr := py (String (ascii_of_nat 10) EmptyString).

(** Outcome of a call that may raise.  [OpenAIConfigError] is kept apart
    from every other exception because the command catches it apart. *)
Inductive outcome (A : Type) : Type :=
| Return (a : A)
| RaiseConfig (msg : pystr)     (* OpenAIConfigError(msg) *)
| RaiseOther (msg : pystr).     (* any other Exception *)
Arguments Return {A} a.
Arguments RaiseConfig {A} msg.
Arguments RaiseOther {A} msg.

(** Conversion of an [int] to a [float] (binary64, round to nearest
    even), as the true division [int / float] performs it.  [None] stands
    for [OverflowError]. *)
Definition int_to_float (z : Z) : option float :=
  match SpecFloat.binary_normalize prec emax z 0 false with
  | S754_infinity _ => None
  | sf => Some (SF2Prim sf)
  end.

End Py.
Import Py.


(* ===================================================================== *)
(** ** django_auto_api/config.py *)
(* ===================================================================== *)

Module config.

(** The two options the command reads.  [None] is Python's [None]. *)
Record Config := {
  INCLUDE_APPS : option (list pystr);
  EXCLUDE_APPS : option (list pystr)
}.

(** [settings.DJANGO_AUTO_API]: a dict in which either key may be missing
    (outer [None]) or bound to any value, [None] included. *)
Record UserConfig := {
  user_INCLUDE_APPS : option (option (list pystr));
  user_EXCLUDE_APPS : option (option (list pystr))
}.

Definition DEFAULT_CONFIG : Config :=
  {| INCLUDE_APPS := None; EXCLUDE_APPS := Some [] |}.

(** [cfg = DEFAULT_CONFIG.copy(); cfg.update(user_cfg)]; the argument is
    [getattr(settings, "DJANGO_AUTO_API", {})], [None] when unset. *)
Definition get_config (settings : option UserConfig) : Config :=
  match settings with
  | None => DEFAULT_CONFIG
  | Some user_cfg =>
      {| INCLUDE_APPS := default (INCLUDE_APPS DEFAULT_CONFIG)
                                 (user_INCLUDE_APPS user_cfg);
         EXCLUDE_APPS := default (EXCLUDE_APPS DEFAULT_CONFIG)
                                 (user_EXCLUDE_APPS user_cfg) |}
  end.

End config.

(* ===================================================================== *)
(** ** django_auto_api/prompts.py *)
(* ===================================================================== *)

Module prompts.

(** One entry of [fields]: the dict [{"name": ..., "type": ...}]. *)
Record FieldMeta := { meta_name : pystr; meta_type : pystr }.

Definition field_line (f : FieldMeta) : pystr :=
  py "- " ++ meta_name f ++ py ": " ++ meta_type f.

Definition build_serializer_prompt
    (app_label model_name : pystr) (fields : list FieldMeta) : pystr :=
  let fields_lines := join LF (List.map field_line fields) in
  LF ++ py "You are given a Django model definition." ++ LF
  ++ LF
  ++ py "App label: " ++ app_label ++ LF
  ++ py "Model name: " ++ model_name ++ LF
  ++ LF
  ++ py "Fields:" ++ LF
  ++ fields_lines ++ LF
  ++ LF
  ++ py "Task:" ++ LF
  ++ py "Write a Django REST Framework ModelSerializer named "
  ++ model_name ++ py "Serializer for this model." ++ LF
  ++ LF
  ++ py "Rules:" ++ LF
  ++ py "- Import from rest_framework import serializers." ++ LF
  ++ py "- Use serializers.ModelSerializer." ++ LF
  ++ py "- Define Meta.model = " ++ model_name ++ py "." ++ LF
  ++ py "- Set Meta.fields = " ++ [34%N] ++ py "__all__" ++ [34%N]
  ++ py "." ++ LF
  ++ py "- Do NOT include any explanation or comments." ++ LF
  ++ py "- Output ONLY valid Python code that can be appended to a serializers module."
  ++ LF.

End prompts.

(* ===================================================================== *)
(** ** django_auto_api/llm_client.py *)
(* ===================================================================== *)

Module llm_client.

(** The request [client.chat.completions.create] sends. *)
Record request := {
  req_api_key : pystr;
  req_model : pystr;
  req_system : pystr;
  req_user : pystr;
  req_temperature : float
}.

(** What the remote call gives back: an exception of the client library,
    or a completion, of which only [choices[i].message.content] is read
    ([None] when the message has no content). *)
Inductive response :=
| RemoteRaise (msg : pystr)
| Completion (choices : list (option pystr)).

Definition no_key_message : pystr :=
  py "No OpenAI API key configured." ++ LF ++ LF
  ++ py "Either:" ++ LF
  ++ py "  1) Set environment variable OPENAI_API_KEY, or" ++ LF
  ++ py "  2) Paste your key into django_auto_api/llm_client.py in API_KEY."
  ++ LF.

Definition system_instruction : pystr :=
  py "You are an assistant that writes clean, valid Python code for "
  ++ py "Django REST Framework. "
  ++ py "Always output ONLY Python code. No explanations, no markdown.".

Definition default_model : pystr := py "gpt-4o-mini".

Section Client.

(** [os.getenv("OPENAI_API_KEY")]: [None] when the variable is unset. *)
Variable key_from_env : option pystr.
(** The module-level constant, the empty string in the repository. *)
Variable API_KEY : pystr.
(** The remote service. *)
Variable remote : request -> response.

Definition _get_api_key : outcome pystr :=
  let key := or_else key_from_env API_KEY in
  if negb (truthy key) then RaiseConfig no_key_message else Return key.

(** The client is the key it was built with. *)
Definition _get_client : outcome pystr := _get_api_key.

(** The result, and the requests that were sent to the remote service. *)
Definition generate_code (prompt model : pystr)
  : outcome pystr * list request :=
  match _get_client with
  | RaiseConfig msg => (RaiseConfig msg, [])
  | RaiseOther msg => (RaiseOther msg, [])
  | Return client =>
      let req := {| req_api_key := client;
                    req_model := model;
                    req_system := system_instruction;
                    req_user := prompt;
                    req_temperature := 0.1%float |} in
      match remote req with
      | RemoteRaise msg => (RaiseOther msg, [req])
      | Completion [] => (RaiseOther (py "IndexError"), [req])
      | Completion (content :: _) => (Return (or_else content []), [req])
      end
  end.

End Client.

End llm_client.

(* ===================================================================== *)
(** ** django_auto_api/management/commands/autoapi_scan.py *)
(* ===================================================================== *)

Module autoapi_scan.

Import config prompts.

(** *** The host framework's registry, as the command reads it *)

(** A field as [model._meta.get_fields()] yields it.  [auto_created] is
    read with [getattr(field, "auto_created", False)]: [None] stands for a
    field without that attribute. *)
Record Field := {
  field_name : pystr;
  field_class_name : pystr;              (* field.__class__.__name__ *)
  auto_created : option bool;
  concrete : bool
}.

Record Model := {
  model_name : pystr;                    (* model.__name__ *)
  get_fields : list Field                (* model._meta.get_fields() *)
}.

Record AppConfig := {
  name : pystr;
  label : pystr;
  path : pystr;
  get_models : list Model
}.

#[global] Instance Field_eq_dec : EqDecision Field.
Proof. solve_decision. Defined.
#[global] Instance Model_eq_dec : EqDecision Model.
Proof. solve_decision. Defined.
#[global] Instance AppConfig_eq_dec : EqDecision AppConfig.
Proof. solve_decision. Defined.

(** The parsed command line ([options]). *)
Record Options := {
  app_label : option pystr;              (* --app *)
  include_empty : bool;                  (* --include-empty *)
  yes : bool;                            (* --yes *)
  opt_model_name : option pystr;         (* --model *)
  budget_only : bool                     (* --budget-only *)
}.

(** *** Effects *)

Inductive style := PLAIN | NOTICE | SUCCESS | WARNING | ERROR.

(** One constructor per text the command prints; numbers and names are
    kept as values, their formatting is not modelled. *)
Inductive message :=
| MsgScanning
| MsgNoMatchingApps
| MsgApp (app : pystr)
| MsgModel (model : pystr)
| MsgNoModels
| MsgBlank
| MsgNoAppsWithModels
| MsgScanComplete (total_apps total_models : Z)
| MsgNothingToEstimate
| MsgBudgetHeader
| MsgModelsToGenerate (total_models : Z)
| MsgEstimatedTokens (total_tokens : Z)
| MsgPricingModel
| MsgEstimatedCost (est_cost : float)
| MsgRoughEstimate
| MsgAborted
| MsgGenerationComplete
| MsgGenerating (app model : pystr)
| MsgException (text : pystr)                 (* str(e) *)
| MsgOpenAIError (model text : pystr)
| MsgNoCode (app model : pystr)
| MsgWrote (app model file : pystr).

Inductive event :=
| EvStdout (st : style) (m : message)         (* self.stdout.write *)
| EvWriteText (file content : pystr)          (* Path.write_text *)
| EvFileWrite (file text : pystr)             (* f.write, append mode *)
| EvGenerate (prompt : pystr) (result : outcome pystr)
                                              (* generate_code(prompt) *)
| EvInput (total_models : Z)                  (* input(...) *)
| EvRaise (exc : pystr).                      (* uncaught exception *)

Record world := World {
  fs : gmap pystr pystr;
  trace : list event
}.

Definition emit (e : event) (w : world) : world :=
  World (fs w) (trace w ++ [e]).

Definition stdout_write (st : style) (m : message) (w : world) : world :=
  emit (EvStdout st m) w.

(** [file.exists()] *)
Definition file_exists (file : pystr) (w : world) : bool :=
  bool_decide (is_Some (fs w !! file)).

(** [file.write_text(content)]: creates or truncates. *)
Definition write_text (file content : pystr) (w : world) : world :=
  World (<[file := content]> (fs w)) (trace w ++ [EvWriteText file content]).

(** [f.write(text)] on [file.open("a")]: appends, creating the file when it
    is missing. *)
Definition file_write (file text : pystr) (w : world) : world :=
  World (<[file := default [] (fs w !! file) ++ text]> (fs w))
        (trace w ++ [EvFileWrite file text]).

(** [Path(p) / "api_serializers_ai.py"] *)
Definition serializers_path (app_path : pystr) : pystr :=
  app_path ++ py "/" ++ py "api_serializers_ai.py".

Definition header : pystr :=
  py "from rest_framework import serializers" ++ LF ++ LF.

(** *** Selection (lines 54-82 of [handle]) *)

Definition is_contrib (app : AppConfig) : bool :=
  startswith (name app) (py "django.contrib").

Definition select (registry : list AppConfig)
    (include_apps : option (list pystr)) (app_label_filter : option pystr)
    (exclude_apps : gset pystr) : list AppConfig :=
  let all_app_configs :=
    List.filter (fun app => negb (is_contrib app)) registry in
  let app_configs :=
    match include_apps with
    | Some (x :: l) =>
        let include_set : gset pystr := list_to_set (x :: l) in
        List.filter (fun app => bool_decide (label app ∈ include_set))
                    all_app_configs
    | _ => all_app_configs
    end in
  let app_configs :=
    match app_label_filter with
    | Some f =>
        if truthy f
        then List.filter (fun app => str_eqb (label app) f) app_configs
        else app_configs
    | None => app_configs
    end in
  List.filter (fun app => negb (bool_decide (label app ∈ exclude_apps)))
              app_configs.

(** *** Scan (lines 88-110 of [handle]) *)

(** [app_models_map]: a dict keyed by the app configs, in insertion order.
    Binding a key that is already there keeps its place.  App configs hash
    by identity; two entries of the registry with the same contents stand
    for the same object. *)
Definition dict_set (k : AppConfig) (v : list Model)
    (d : list (AppConfig * list Model)) : list (AppConfig * list Model) :=
  if existsb (fun kv => bool_decide (fst kv = k)) d
  then List.map (fun kv => if bool_decide (fst kv = k) then (fst kv, v) else kv) d
  else d ++ [(k, v)].

Record scan_state := {
  total_apps : Z;
  total_models : Z;
  app_models_map : list (AppConfig * list Model)
}.

Definition print_models (models : list Model) (w : world) : world :=
  match models with
  | [] => stdout_write PLAIN MsgNoModels w
  | _ => fold_left (fun w model => stdout_write PLAIN (MsgModel (model_name model)) w)
                   models w
  end.

Fixpoint scan (app_configs : list AppConfig) (include_empty : bool)
    (st : scan_state) (w : world) : scan_state * world :=
  match app_configs with
  | [] => (st, w)
  | app_config :: rest =>
      let models := get_models app_config in
      if match models with [] => true | _ => false end && negb include_empty
      then scan rest include_empty st w
      else
        let st := {| total_apps := total_apps st + 1;
                     total_models := total_models st + Z.of_nat (length models);
                     app_models_map := dict_set app_config models (app_models_map st) |} in
        let w := stdout_write SUCCESS (MsgApp (label app_config)) w in
        let w := print_models models w in
        let w := stdout_write PLAIN MsgBlank w in
        scan rest include_empty st w
  end.

(** *** Estimate (lines 123-146 of [handle], the [--budget-only] mode) *)

Definition avg_tokens_per_model : Z := 1000.
Definition price_per_1k : float := 0.0009%float.

(** [est_cost = (total_tokens / 1000.0) * price_per_1k]; [None] when the
    conversion of [total_tokens] raises [OverflowError]. *)
Definition est_cost (total_tokens : Z) : option float :=
  match int_to_float total_tokens with
  | Some t => Some (t / 1000.0 * price_per_1k)%float
  | None => None
  end.

Definition estimate (total_models : Z) (w : world) : world :=
  if (total_models =? 0)%Z
  then stdout_write WARNING MsgNothingToEstimate w
  else
    let total_tokens := (total_models * avg_tokens_per_model)%Z in
    match est_cost total_tokens with
    | None => emit (EvRaise (py "OverflowError")) w
    | Some cost =>
        let w := stdout_write NOTICE MsgBudgetHeader w in
        let w := stdout_write PLAIN (MsgModelsToGenerate total_models) w in
        let w := stdout_write PLAIN (MsgEstimatedTokens total_tokens) w in
        let w := stdout_write PLAIN MsgPricingModel w in
        let w := stdout_write PLAIN (MsgEstimatedCost cost) w in
        stdout_write SUCCESS MsgRoughEstimate w
    end.

(** *** Generation ([_generate_for_app]) *)

(** Lines 187-197: the loop that collects the field metadata. *)
Definition skip_field (field : Field) : bool :=
  default false (auto_created field) && negb (concrete field).

Definition collect_fields_meta (fields : list Field) : list FieldMeta :=
  fold_left
    (fun fields_meta field =>
       if skip_field field then fields_meta
       else fields_meta ++ [{| meta_name := field_name field;
                               meta_type := field_class_name field |}])
    fields [].

(** How one turn of the loop over the models ends: with the next model
    ([continue], or the end of the body), or with [return]. *)
Inductive flow := Next | Stop.

(** The text appended for one unit (lines 227-231). *)
Definition append_code (file code : pystr) (w : world) : world :=
  let w := file_write file code w in
  let w := if negb (endswith code LF) then file_write file LF w else w in
  file_write file (LF ++ LF) w.

Section Command.

(** [generate_code], as imported from [llm_client]: the outcome of a call
    may depend on the prompt and on all that happened before the call. *)
Variable generate_code : list event -> pystr -> outcome pystr.

(** The body of [for model in models] (lines 181-238). *)
Definition generate_for_model (app_label serializers_file : pystr)
    (model_name_filter : option pystr) (model : Model) (w : world)
  : flow * world :=
  let model_name := model_name model in
  if truthy_opt model_name_filter
     && negb (str_eqb model_name (default [] model_name_filter))
  then (Next, w)
  else
    let fields_meta := collect_fields_meta (get_fields model) in
    let prompt := build_serializer_prompt app_label model_name fields_meta in
    let w := stdout_write NOTICE (MsgGenerating app_label model_name) w in
    let result := generate_code (trace w) prompt in
    let w := emit (EvGenerate prompt result) w in
    match result with
    | RaiseConfig e => (Stop, stdout_write ERROR (MsgException e) w)
    | RaiseOther e =>
        (Next, stdout_write ERROR (MsgOpenAIError model_name e) w)
    | Return code =>
        if negb (truthy (strip code))
        then (Next, stdout_write WARNING (MsgNoCode app_label model_name) w)
        else
          let w := append_code serializers_file code w in
          (Next, stdout_write SUCCESS
                   (MsgWrote app_label model_name serializers_file) w)
    end.

Fixpoint generate_loop (app_label serializers_file : pystr)
    (model_name_filter : option pystr) (models : list Model) (w : world)
  : world :=
  match models with
  | [] => w
  | model :: rest =>
      match generate_for_model app_label serializers_file
                               model_name_filter model w with
      | (Next, w) =>
          generate_loop app_label serializers_file model_name_filter rest w
      | (Stop, w) => w
      end
  end.

Definition _generate_for_app (app_config : AppConfig) (models : list Model)
    (model_name_filter : option pystr) (w : world) : world :=
  let app_label := label app_config in
  let serializers_file := serializers_path (path app_config) in
  let w := if negb (file_exists serializers_file w)
           then write_text serializers_file header w
           else w in
  generate_loop app_label serializers_file model_name_filter models w.

(** Lines 161-163: the loop over [app_models_map.items()]. *)
Definition generation_phase (items : list (AppConfig * list Model))
    (model_name_filter : option pystr) (w : world) : world :=
  fold_left
    (fun w item => _generate_for_app (fst item) (snd item) model_name_filter w)
    items w.

(** *** The command *)

(** [handle].  [settings] is the project's [DJANGO_AUTO_API] setting,
    [registry] is [django_apps.get_app_configs()], and [confirmed] tells
    whether the operator's answer to [input(...)], stripped and
    lower-cased, is [y] or [yes]. *)
Definition handle (settings : option UserConfig) (registry : list AppConfig)
    (options : Options) (confirmed : bool) (w : world) : world :=
  let cfg := get_config settings in
  let app_label_filter := app_label options in
  let model_name_filter := opt_model_name options in
  let include_apps := INCLUDE_APPS cfg in
  let exclude_apps : gset pystr :=
    list_to_set (default [] (EXCLUDE_APPS cfg)) in
  let w := stdout_write NOTICE MsgScanning w in
  let app_configs :=
    select registry include_apps app_label_filter exclude_apps in
  match app_configs with
  | [] => stdout_write WARNING MsgNoMatchingApps w
  | _ =>
    let '(st, w) :=
      scan app_configs (include_empty options)
           {| total_apps := 0; total_models := 0; app_models_map := [] |} w in
    if (total_apps st =? 0)%Z
    then stdout_write WARNING MsgNoAppsWithModels w
    else
      let w := stdout_write SUCCESS
                 (MsgScanComplete (total_apps st) (total_models st)) w in
      if budget_only options then estimate (total_models st) w
      else if (total_models st =? 0)%Z then w
      else
        let proceed :=
          if negb (yes options)
          then (confirmed, emit (EvInput (total_models st)) w)
          else (true, w) in
        if fst proceed
        then
          let w := generation_phase (app_models_map st) model_name_filter
                                    (snd proceed) in
          stdout_write SUCCESS MsgGenerationComplete w
        else stdout_write WARNING MsgAborted (snd proceed)
  end.

End Command.

End autoapi_scan.

(* ===================================================================== *)
(** ** Concrete registries and services used in the examples *)
(* ===================================================================== *)

Module Examples.

Import config prompts autoapi_scan.

Definition title_field : Field :=
  {| field_name := py "title"; field_class_name := py "CharField";
     auto_created := Some false; concrete := true |}.

(** The implicit primary key: auto-created and concrete. *)
Definition id_field : Field :=
  {| field_name := py "id"; field_class_name := py "AutoField";
     auto_created := Some true; concrete := true |}.

(** The reverse side of a foreign key: auto-created, not concrete. *)
Definition comments_rel : Field :=
  {| field_name := py "comment"; field_class_name := py "ManyToOneRel";
     auto_created := Some true; concrete := false |}.

Definition Post : Model :=
  {| model_name := py "Post";
     get_fields := [comments_rel; id_field; title_field] |}.

Definition Order : Model :=
  {| model_name := py "Order"; get_fields := [id_field] |}.

Definition blog : AppConfig :=
  {| name := py "blog"; label := py "blog"; path := py "/srv/blog";
     get_models := [Post] |}.

Definition shop : AppConfig :=
  {| name := py "shop"; label := py "shop"; path := py "/srv/shop";
     get_models := [Order] |}.

(** An app without models. *)
Definition pages : AppConfig :=
  {| name := py "pages"; label := py "pages"; path := py "/srv/pages";
     get_models := [] |}.

Definition auth : AppConfig :=
  {| name := py "django.contrib.auth"; label := py "auth";
     path := py "/lib/django/contrib/auth"; get_models := [] |}.

Definition empty_world : world := World ∅ [].

Definition run_options : Options :=
  {| app_label := None; include_empty := false; yes := true;
     opt_model_name := None; budget_only := false |}.

(** A remote service that always answers with one choice. *)
Definition answering (text : pystr) : llm_client.request -> llm_client.response :=
  fun _ => llm_client.Completion [Some text].

(** [generate_code] of [llm_client], for a given environment. *)
Definition client (key_from_env : option pystr) (API_KEY : pystr)
    (remote : llm_client.request -> llm_client.response)
  : list event -> pystr -> outcome pystr :=
  fun _ prompt =>
    fst (llm_client.generate_code key_from_env API_KEY remote prompt
                                  llm_client.default_model).

(** No key in the environment, none in the module. *)
Definition no_key_client : list event -> pystr -> outcome pystr :=
  client None [] (answering (py "class S: pass")).

End Examples.


(* ===================================================================== *)
(** ** What a trace shows *)
(* ===================================================================== *)

Module Observe.

Import autoapi_scan.

Definition is_generate (e : event) : bool :=
  match e with EvGenerate _ _ => true | _ => false end.

Definition is_write_text (e : event) : bool :=
  match e with EvWriteText _ _ => true | _ => false end.

(** The texts written, in order, to [file] through [f.write]. *)
Definition writes_of (file : pystr) (evs : list event) : list pystr :=
  flat_map (fun e => match e with
                     | EvFileWrite f text => if str_eqb f file then [text] else []
                     | _ => []
                     end) evs.

(** The texts the remote calls returned that are neither empty nor made of
    white space only, in order. *)
Definition returned_texts (evs : list event) : list pystr :=
  flat_map (fun e => match e with
                     | EvGenerate _ (Return code) =>
                         if truthy (strip code) then [code] else []
                     | _ => []
                     end) evs.

(** What the artifact receives for one generated text: the text, a line
    feed unless the text ends with one, and the separator of two line
    feeds. *)
Definition unit_block (code : pystr) : pystr :=
  code ++ (if endswith code LF then [] else LF) ++ LF ++ LF.

(** The metadata entry of a field. *)
Definition meta_of (field : Field) : prompts.FieldMeta :=
  {| prompts.meta_name := field_name field;
     prompts.meta_type := field_class_name field |}.

(** A field is auto-created and not concrete. *)
Definition auto_and_not_concrete (field : Field) : bool :=
  bool_decide (auto_created field = Some true ∧ concrete field = false).

Definition is_output (e : event) : bool :=
  match e with EvStdout _ _ | EvRaise _ => true | _ => false end.

(** From [w] to [w'] the command only printed (or crashed): the events
    [evs] were added to the trace and no file was touched. *)
Definition only_prints (w w' : world) (evs : list event) : Prop :=
  fs w' = fs w
  ∧ trace w' = trace w ++ evs
  ∧ Forall (fun e => is_output e = true) evs.

(** From [w] to [w'] the events [evs] were added to the trace; no file was
    created or rewritten; no file but [file] changed; and [file], when it
    was there, grew by the texts written to it, which are the blocks of the
    texts the remote calls returned. *)
Definition appended_to (file : pystr) (w w' : world) (evs : list event)
  : Prop :=
  trace w' = trace w ++ evs
  ∧ Forall (fun e => is_write_text e = false) evs
  ∧ (∀ p, p ≠ file → fs w' !! p = fs w !! p)
  ∧ (∀ X, fs w !! file = Some X →
          fs w' !! file = Some (X ++ concat (writes_of file evs)))
  ∧ concat (writes_of file evs)
    = concat (List.map unit_block (returned_texts evs)).

(** [n] remote calls were made in [evs]. *)
Definition calls_in (evs : list event) : nat :=
  length (List.filter is_generate evs).

(** The prompt the command builds for a unit. *)
Definition prompt_of (app_label : pystr) (model : Model) : pystr :=
  prompts.build_serializer_prompt app_label (model_name model)
    (collect_fields_meta (get_fields model)).

(** The unit is not skipped by the [--model] filter. *)
Definition passes (model_name_filter : option pystr) (model : Model) : Prop :=
  truthy_opt model_name_filter = false
  ∨ model_name_filter = Some (model_name model).

(** The world in which [generate_code] is called for a unit: the notice
    has been printed. *)
Definition at_call (app_label : pystr) (model : Model) (w : world) : world :=
  stdout_write NOTICE (MsgGenerating app_label (model_name model)) w.

(** No file of [w] is lost or shortened in [w']: each one keeps its
    content as a prefix. *)
Definition grows (w w' : world) : Prop :=
  ∀ p X, fs w !! p = Some X → ∃ suffix, fs w' !! p = Some (X ++ suffix).

(** The events added to the trace from [w] to [w']. *)
Definition new_events (w w' : world) : list event :=
  drop (length (trace w)) (trace w').

(** The test of line 183, negated: the unit gets past the [--model]
    filter. *)
Definition passes_b (model_name_filter : option pystr) (model : Model) : bool :=
  negb (truthy_opt model_name_filter
        && negb (str_eqb (model_name model) (default [] model_name_filter))).

Definition is_input (e : event) : bool :=
  match e with EvInput _ => true | _ => false end.

(** Printing, crashing, reading the operator's answer: no remote call and
    no file operation. *)
Definition is_passive (e : event) : bool :=
  match e with EvStdout _ _ | EvRaise _ | EvInput _ => true | _ => false end.

(** The four tests of the selection, on one app config. *)
Definition keeps (include_apps : option (list pystr))
    (app_label_filter : option pystr) (exclude_apps : gset pystr)
    (app : AppConfig) : bool :=
  negb (is_contrib app)
  && match include_apps with
     | Some (x :: l) =>
         bool_decide (label app ∈ (list_to_set (x :: l) : gset pystr))
     | _ => true
     end
  && match app_label_filter with
     | Some f => if truthy f then str_eqb (label app) f else true
     | None => true
     end
  && negb (bool_decide (label app ∈ exclude_apps)).

(** The collections [handle] selects, from the settings and the options. *)
Definition selection (settings : option config.UserConfig)
    (registry : list AppConfig) (options : Options) : list AppConfig :=
  select registry (config.INCLUDE_APPS (config.get_config settings))
    (app_label options)
    (list_to_set (default [] (config.EXCLUDE_APPS (config.get_config settings)))).

(** The collection gets past the test of line 96. *)
Definition reported (include_empty : bool) (app : AppConfig) : bool :=
  match get_models app with [] => include_empty | _ :: _ => true end.

(** All the units of a list of collections. *)
Definition units_of (apps : list AppConfig) : list Model :=
  concat (List.map get_models apps).

(** The state of the scan before the first collection. *)
Definition scan_start : scan_state :=
  {| total_apps := 0; total_models := 0; app_models_map := [] |}.

(** What the generation of one collection may add to the trace: prints;
    calls for a unit of the collection that gets past the filter, with the
    answer of the service; writes to the artifact of the collection. *)
Definition unit_event (generate_code : list event → pystr → outcome pystr)
    (app_label file : pystr) (model_name_filter : option pystr)
    (models : list Model) (e : event) : Prop :=
  match e with
  | EvStdout _ _ => True
  | EvGenerate prompt result =>
      ∃ model tr, In model models ∧ passes model_name_filter model
                  ∧ prompt = prompt_of app_label model
                  ∧ result = generate_code tr prompt
  | EvFileWrite f _ => f = file
  | _ => False
  end.

(** The same for the generation phase over the map [items]. *)
Definition run_event (generate_code : list event → pystr → outcome pystr)
    (items : list (AppConfig * list Model))
    (model_name_filter : option pystr) (e : event) : Prop :=
  match e with
  | EvStdout _ _ => True
  | EvGenerate prompt result =>
      ∃ app models model tr,
        In (app, models) items ∧ In model models
        ∧ passes model_name_filter model
        ∧ prompt = prompt_of (label app) model
        ∧ result = generate_code tr prompt
  | EvFileWrite f _ =>
      ∃ app models, In (app, models) items ∧ f = serializers_path (path app)
  | EvWriteText f content =>
      (∃ app models, In (app, models) items ∧ f = serializers_path (path app))
      ∧ content = header
  | _ => False
  end.

(** How many times [write_text] was called on [p]. *)
Definition header_writes (p : pystr) (evs : list event) : nat :=
  length (List.filter (fun e => match e with
                                | EvWriteText f _ => str_eqb f p
                                | _ => false
                                end) evs).


(** The service never raises the configuration error. *)
Definition never_config (generate_code : list event → pystr → outcome pystr)
  : Prop :=
  ∀ tr prompt e, generate_code tr prompt ≠ RaiseConfig e.

(** The service always raises the configuration error. *)
Definition always_config (generate_code : list event → pystr → outcome pystr)
  : Prop :=
  ∀ tr prompt, ∃ e, generate_code tr prompt = RaiseConfig e.

(** The service never returns a text with something else than white
    space. *)
Definition never_text (generate_code : list event → pystr → outcome pystr)
  : Prop :=
  ∀ tr prompt code, generate_code tr prompt = Return code → strip code = [].

End Observe.

Import config prompts autoapi_scan Examples Observe.

(* ===================================================================== *)
(** ** Python strings: basic facts *)
(* ===================================================================== *)

Lemma truthy_true (s : pystr) : truthy s = true ↔ s ≠ [].
Proof. destruct s; simpl; split; intros; congruence. Qed.

Lemma truthy_false (s : pystr) : truthy s = false ↔ s = [].
Proof. destruct s; simpl; split; intros; congruence. Qed.

Lemma startswith_app (p s : pystr) : startswith (p ++ s) p = true.
Proof.
  induction p as [|c p IH]; simpl; [done|].
  by rewrite N.eqb_refl, IH.
Qed.

Lemma startswith_inv (s p : pystr) :
  startswith s p = true → ∃ t, s = p ++ t.
Proof.
  revert s. induction p as [|c p IH]; intros s H; simpl in *.
  - by exists s.
  - destruct s as [|d s]; [done|].
    apply andb_true_iff in H as [Hc Hs].
    apply N.eqb_eq in Hc as ->.
    destruct (IH _ Hs) as [t ->]. by exists t.
Qed.

(** [s.endswith(p)] holds exactly when [s] is some text followed by [p]. *)
Lemma endswith_spec (s p : pystr) :
  endswith s p = true ↔ ∃ t, s = t ++ p.
Proof.
  unfold endswith. split.
  - intros H. apply startswith_inv in H as [t Ht].
    exists (rev t). apply (f_equal (@rev N)) in Ht.
    by rewrite List.rev_involutive, List.rev_app_distr, List.rev_involutive in Ht.
  - intros [t ->]. rewrite List.rev_app_distr. apply startswith_app.
Qed.

Lemma lstrip_nil_iff (s : pystr) :
  lstrip s = [] ↔ Forall (fun c => isspace c = true) s.
Proof.
  induction s as [|c s IH]; simpl.
  - split; [constructor | done].
  - destruct (isspace c) eqn:Hc.
    + rewrite IH. split; [by constructor | intros H; by inversion H].
    + split; [done | intros H; inversion H; congruence].
Qed.

(** [s.strip()] is empty exactly when [s] is empty or white space only. *)
Lemma strip_nil_iff (s : pystr) :
  strip s = [] ↔ Forall (fun c => isspace c = true) s.
Proof.
  unfold strip, rstrip. split.
  - intros H. destruct (lstrip s) as [|c t] eqn:Hl.
    + by apply lstrip_nil_iff.
    + exfalso.
      assert (Hc : isspace c = false).
      { clear H. induction s as [|d s IH]; simpl in Hl; [done|].
        destruct (isspace d) eqn:Hd; [auto | congruence]. }
      apply (f_equal (@rev N)) in H. rewrite List.rev_involutive in H.
      simpl in H. apply lstrip_nil_iff in H.
      apply Forall_app in H as [_ H]. inversion H; congruence.
  - intros H. apply lstrip_nil_iff in H. by rewrite H.
Qed.

(* ===================================================================== *)
(** ** Conversion of an [int] to a [float] *)
(* ===================================================================== *)

Lemma digits2_pos_size (m : positive) : digits2_pos m = Pos.size m.
Proof. induction m; simpl; congruence. Qed.

Lemma digits2_pos_iter_xO (m k : positive) :
  Zpos (digits2_pos (Pos.iter xO m k)) = (Zpos (digits2_pos m) + Zpos k)%Z.
Proof.
  induction k as [|k IH] using Pos.peano_ind.
  - simpl. lia.
  - rewrite Pos.iter_succ. simpl. lia.
Qed.

Lemma digits2_pos_bound (m : positive) (d : Z) :
  (0 <= d)%Z → (Zpos m < 2 ^ d)%Z → (Zpos (digits2_pos m) <= d)%Z.
Proof.
  intros Hd Hm. rewrite digits2_pos_size.
  pose proof (Pos.size_le m) as Hs.
  apply Pos2Z.pos_le_pos in Hs. rewrite Pos2Z.inj_pow in Hs.
  change (Z.pos m~0) with (2 * Z.pos m)%Z in Hs.
  destruct (Z.le_gt_cases (Z.pos (Pos.size m)) d) as [|Hgt]; [done|].
  assert (2 ^ (d + 1) <= 2 ^ Z.pos (Pos.size m))%Z
    by (apply Z.pow_le_mono_r; lia).
  rewrite Z.pow_add_r in H by lia. lia.
Qed.

(** An [int] below [2 ^ 53] converts to a finite float. *)
Lemma binary_normalize_exact (m : positive) :
  (Zpos m < 2 ^ 53)%Z →
  ∃ mz ez, SpecFloat.binary_normalize prec emax (Zpos m) 0 false
           = S754_finite false mz ez.
Proof.
  intros Hm.
  pose proof (digits2_pos_bound m 53 ltac:(lia) Hm) as Hd.
  unfold binary_normalize, binary_round.
  set (d := Zpos (digits2_pos m)) in *.
  assert (Hfexp : fexp prec emax (d + 0) = (d - 53)%Z).
  { unfold fexp, emin, prec, emax. lia. }
  rewrite Hfexp.
  assert (Hal : ∃ mz, shl_align m 0 (d - 53) = (mz, (d - 53)%Z)
                      ∧ Zpos (digits2_pos mz) = 53%Z).
  { unfold shl_align. rewrite Z.sub_0_r.
    destruct (d - 53)%Z as [|k|k] eqn:Hk; [|lia|].
    - exists m. split; [done|]. fold d. lia.
    - exists (Pos.iter xO m k). split; [done|].
      rewrite digits2_pos_iter_xO. fold d. lia. }
  destruct Hal as (mz & -> & Hmz).
  exists mz, (d - 53)%Z.
  unfold binary_round_aux, shr_fexp. cbn [Zdigits2 shr_record_of_loc].
  rewrite Hmz.
  assert (Hz : (fexp prec emax (53 + (d - 53)) - (d - 53) = 0)%Z).
  { unfold fexp, emin, prec, emax. lia. }
  rewrite Hz. cbn [shr shr_m loc_of_shr_record round_nearest_even Zdigits2 shr_record_of_loc].
  rewrite Hmz, Hz. cbn [shr shr_m].
  assert (Hle : (d - 53 <=? emax - prec)%Z = true).
  { apply Z.leb_le. unfold emax, prec. lia. }
  by rewrite Hle.
Qed.

(** No [OverflowError] for a count below [2 ^ 53]. *)
Lemma int_to_float_exact_range (z : Z) :
  (0 <= z < 2 ^ 53)%Z → is_Some (int_to_float z).
Proof.
  intros [H0 H1]. unfold int_to_float. destruct z as [|m|m]; [by eexists| |lia].
  destruct (binary_normalize_exact m H1) as (mz & ez & ->). by eexists.
Qed.

(* ===================================================================== *)
(** ** Field metadata *)
(* ===================================================================== *)

Lemma skip_field_spec (field : Field) :
  skip_field field = auto_and_not_concrete field.
Proof.
  unfold skip_field, auto_and_not_concrete.
  by destruct field as [n c [[|]|] [|]].
Qed.

Lemma collect_fields_meta_from (fields : list Field) (acc : list FieldMeta) :
  fold_left
    (fun fields_meta field =>
       if skip_field field then fields_meta
       else fields_meta ++ [{| meta_name := field_name field;
                               meta_type := field_class_name field |}])
    fields acc
  = acc ++ List.map meta_of
             (List.filter (fun f => negb (auto_and_not_concrete f)) fields).
Proof.
  revert acc. induction fields as [|f fields IH]; intros acc; simpl.
  - by rewrite app_nil_r.
  - rewrite IH, <- skip_field_spec.
    destruct (skip_field f); simpl; [done|].
    by rewrite <- app_assoc.
Qed.

(** C4.  The field metadata of a unit is the list of [{name, type}] entries
    of its fields, in the order [get_fields] yields them, without the
    fields that are both auto-created and not concrete, and without these
    only. *)
Theorem fields_meta_extraction (fields : list Field) :
  collect_fields_meta fields
  = List.map meta_of
      (List.filter (fun f => negb (auto_and_not_concrete f)) fields).
Proof. unfold collect_fields_meta. by rewrite collect_fields_meta_from. Qed.

(** The concrete auto-created primary key is kept, the reverse relation is
    dropped. *)
Example fields_meta_of_Post :
  collect_fields_meta [comments_rel; id_field; title_field]
  = [meta_of id_field; meta_of title_field].
Proof. reflexivity. Qed.

(** A field without the [auto_created] attribute is kept, concrete or not. *)
Example fields_meta_without_attribute :
  let tags := {| field_name := py "tags";
                 field_class_name := py "GenericForeignKey";
                 auto_created := None; concrete := false |} in
  collect_fields_meta [tags] = [meta_of tags].
Proof. reflexivity. Qed.

(* ===================================================================== *)
(** ** Selection *)
(* ===================================================================== *)

Lemma Forall_filter_keeps {A} (P : A → Prop) (f : A → bool) (l : list A) :
  Forall P l → Forall P (List.filter f l).
Proof.
  induction 1 as [|x l Hx Hl IH]; simpl; [constructor|].
  destruct (f x); [by constructor | done].
Qed.

Lemma Forall_filter_true {A} (f : A → bool) (l : list A) :
  Forall (fun x => f x = true) (List.filter f l).
Proof.
  induction l as [|x l IH]; simpl; [constructor|].
  destruct (f x) eqn:E; [by constructor | done].
Qed.

Lemma Forall_filter_in {A} (f : A → bool) (l : list A) :
  Forall (fun x => In x l) (List.filter f l).
Proof.
  apply Forall_forall. intros x Hx. apply list_elem_of_In in Hx.
  by apply filter_In in Hx as [? _].
Qed.

Lemma filter_none {A} (f : A → bool) (l : list A) :
  (∀ x, In x l → f x = false) → List.filter f l = [].
Proof.
  induction l as [|x l IH]; intros H; simpl; [done|].
  rewrite (H x) by (by left). apply IH. intros y Hy. apply H. by right.
Qed.

(** C6.  Whatever the allow-list, the exclude-set and the CLI filter, every
    collection [select] returns comes from the registry and lies outside
    the [django.contrib] namespace. *)
Theorem select_never_contrib (registry : list AppConfig)
    (include_apps : option (list pystr)) (app_label_filter : option pystr)
    (exclude_apps : gset pystr) :
  Forall (fun app => In app registry
                     ∧ startswith (name app) (py "django.contrib") = false)
         (select registry include_apps app_label_filter exclude_apps).
Proof.
  unfold select.
  set (all := List.filter (fun app => negb (is_contrib app)) registry).
  assert (Hall : Forall (fun app => In app registry
             ∧ startswith (name app) (py "django.contrib") = false) all).
  { apply Forall_and; split; [apply Forall_filter_in|].
    eapply Forall_impl; [apply Forall_filter_true|].
    intros app H. by apply negb_true_iff in H. }
  apply Forall_filter_keeps.
  destruct app_label_filter as [f|];
    [destruct (truthy f); [apply Forall_filter_keeps|] |];
    (destruct include_apps as [[|x l]|]; [| apply Forall_filter_keeps |]);
    exact Hall.
Qed.

(** C5.  With a non-empty allow-list and a CLI filter that names a label
    (a non-empty string, which is what the command takes for a filter)
    outside the allow-list, [select] returns the empty sequence. *)
Theorem select_cli_outside_allow_list (registry : list AppConfig)
    (allow : list pystr) (cli : pystr) (exclude_apps : gset pystr) :
  allow ≠ [] →
  cli ≠ [] →
  ¬ In cli allow →
  select registry (Some allow) (Some cli) exclude_apps = [].
Proof.
  intros Hallow Hcli Hout. unfold select.
  destruct allow as [|x l]; [done|].
  apply truthy_true in Hcli. rewrite Hcli.
  apply filter_none. intros app Happ.
  apply filter_In in Happ as [Happ Heq].
  apply filter_In in Happ as [_ Hin].
  unfold str_eqb in Heq. apply bool_decide_eq_true in Heq.
  apply bool_decide_eq_true in Hin.
  exfalso. apply Hout. rewrite <- Heq.
  apply list_elem_of_In. by apply elem_of_list_to_set in Hin.
Qed.

Lemma select_cli_outside_allow_list_witness :
  select [blog; shop; auth] (Some [py "blog"]) (Some (py "shop")) ∅ = [].
Proof.
  apply select_cli_outside_allow_list.
  - discriminate.
  - discriminate.
  - intros [H|[]]. discriminate H.
Defined.

(** An empty [--app] value is no filter: the allow-list alone decides. *)
Example select_empty_cli_value :
  select [blog; shop; auth] (Some [py "blog"]) (Some []) ∅ = [blog].
Proof. vm_compute. reflexivity. Qed.

(** The CLI filter narrows the allow-list, it does not widen it. *)
Example select_cli_inside_allow_list :
  select [blog; shop; auth] (Some [py "blog"; py "shop"]) (Some (py "shop")) ∅
  = [shop].
Proof. vm_compute. reflexivity. Qed.

(* ===================================================================== *)
(** ** The client of the remote service *)
(* ===================================================================== *)

Lemma or_else_nil_iff (a : option pystr) (b : pystr) :
  or_else a b = [] ↔ (a = None ∨ a = Some []) ∧ b = [].
Proof.
  destruct a as [[|c s]|]; simpl; split.
  - intros ->. split; [by right | done].
  - by intros [_ ->].
  - done.
  - intros [[?|?] _]; congruence.
  - intros ->. split; [by left | done].
  - by intros [_ ->].
Qed.

Lemma get_api_key_raises_iff (key_from_env : option pystr) (API_KEY : pystr) :
  llm_client._get_api_key key_from_env API_KEY
    = RaiseConfig llm_client.no_key_message
  ↔ (key_from_env = None ∨ key_from_env = Some []) ∧ API_KEY = [].
Proof.
  unfold llm_client._get_api_key. rewrite <- or_else_nil_iff.
  destruct (or_else key_from_env API_KEY); simpl; split; congruence.
Qed.

Lemma get_api_key_returns (key_from_env : option pystr) (API_KEY : pystr) :
  or_else key_from_env API_KEY ≠ [] →
  llm_client._get_api_key key_from_env API_KEY
    = Return (or_else key_from_env API_KEY).
Proof.
  unfold llm_client._get_api_key.
  by destruct (or_else key_from_env API_KEY).
Qed.

(** C9.  [generate_code] raises the configuration error exactly when the
    environment variable is unset or empty and the module constant is
    empty; it then sends no request.  When the environment variable is set
    (non-empty), the one request that is sent carries its value, whatever
    the module constant is. *)
Theorem generate_code_config_error (key_from_env : option pystr)
    (API_KEY : pystr) (remote : llm_client.request → llm_client.response)
    (prompt model : pystr) :
  let run := llm_client.generate_code key_from_env API_KEY remote prompt model in
  ((∃ msg, fst run = RaiseConfig msg)
     ↔ (key_from_env = None ∨ key_from_env = Some []) ∧ API_KEY = [])
  ∧ ((∃ msg, fst run = RaiseConfig msg) → snd run = [])
  ∧ (∀ env_key, key_from_env = Some env_key → env_key ≠ [] →
       ∃ req, snd run = [req] ∧ llm_client.req_api_key req = env_key
              ∧ llm_client.req_user req = prompt).
Proof.
  unfold llm_client.generate_code, llm_client._get_client.
  destruct (decide (or_else key_from_env API_KEY = [])) as [Hnil|Hkey].
  - pose proof Hnil as Hnone. apply or_else_nil_iff in Hnone.
    apply get_api_key_raises_iff in Hnone as ->. simpl.
    split; [|split].
    + split; [intros _; by apply or_else_nil_iff | eauto].
    + done.
    + intros env_key -> Hne. simpl in Hnil.
      destruct env_key; [done | simpl in Hnil; done].
  - rewrite (get_api_key_returns _ _ Hkey). simpl.
    destruct (remote _) as [m|[|c l]]; simpl.
    all: split; [|split].
    all: try (split; [intros [msg H]; discriminate H
                     | intros H; by apply or_else_nil_iff in H]).
    all: try (intros [msg H]; discriminate H).
    all: intros env_key -> Hne; destruct env_key as [|d s]; [done|];
         simpl; eauto.
Qed.

(** Without any key every call raises the configuration error. *)
Example no_key_client_raises (tr : list event) (prompt : pystr) :
  no_key_client tr prompt = RaiseConfig llm_client.no_key_message.
Proof. reflexivity. Qed.

(** The environment variable wins over the pasted constant. *)
Example env_key_takes_precedence :
  snd (llm_client.generate_code (Some (py "sk-env")) (py "sk-pasted")
         (answering (py "class S: pass")) (py "p") llm_client.default_model)
  = [{| llm_client.req_api_key := py "sk-env";
        llm_client.req_model := py "gpt-4o-mini";
        llm_client.req_system := llm_client.system_instruction;
        llm_client.req_user := py "p";
        llm_client.req_temperature := 0.1%float |}].
Proof. reflexivity. Qed.

(** The pasted constant is used when the environment has none. *)
Example pasted_key_is_fallback :
  List.map llm_client.req_api_key
    (snd (llm_client.generate_code (Some []) (py "sk-pasted")
            (answering (py "class S: pass")) (py "p")
            llm_client.default_model))
  = [py "sk-pasted"].
Proof. reflexivity. Qed.

(* ===================================================================== *)
(** ** Effects of the generation loop *)
(* ===================================================================== *)

Lemma writes_of_app (file : pystr) (evs1 evs2 : list event) :
  writes_of file (evs1 ++ evs2) = writes_of file evs1 ++ writes_of file evs2.
Proof. unfold writes_of. by rewrite flat_map_app. Qed.

Lemma returned_texts_app (evs1 evs2 : list event) :
  returned_texts (evs1 ++ evs2) = returned_texts evs1 ++ returned_texts evs2.
Proof. unfold returned_texts. by rewrite flat_map_app. Qed.

Lemma writes_of_self (file text : pystr) :
  writes_of file [EvFileWrite file text] = [text].
Proof.
  unfold writes_of, str_eqb. simpl.
  by rewrite bool_decide_eq_true_2.
Qed.

Lemma appended_to_refl (file : pystr) (w : world) : appended_to file w w [].
Proof.
  unfold appended_to. simpl. rewrite !app_nil_r.
  split_and!; [done | constructor | done | | done].
  intros X HX. by rewrite app_nil_r.
Qed.

Lemma appended_to_trans (file : pystr) (w1 w2 w3 : world)
    (evs1 evs2 : list event) :
  appended_to file w1 w2 evs1 →
  appended_to file w2 w3 evs2 →
  appended_to file w1 w3 (evs1 ++ evs2).
Proof.
  intros (Ht1 & Hw1 & Ho1 & Hf1 & Hr1) (Ht2 & Hw2 & Ho2 & Hf2 & Hr2).
  unfold appended_to. split_and!.
  - by rewrite Ht2, Ht1, app_assoc.
  - by apply Forall_app.
  - intros p Hp. by rewrite Ho2, Ho1.
  - intros X HX. rewrite (Hf2 _ (Hf1 _ HX)).
    by rewrite writes_of_app, concat_app, app_assoc.
  - rewrite writes_of_app, returned_texts_app, List.map_app, !concat_app.
    by rewrite Hr1, Hr2.
Qed.

(** Printing adds one event and touches no file. *)
Lemma stdout_write_appended (file : pystr) (st : style) (m : message)
    (w : world) :
  appended_to file w (stdout_write st m w) [EvStdout st m].
Proof.
  unfold appended_to. simpl.
  split_and!; [done | by repeat constructor | done | | done].
  intros X HX. by rewrite app_nil_r.
Qed.

Lemma file_write_lookup (file text : pystr) (w : world) (X : pystr) :
  fs w !! file = Some X →
  fs (file_write file text w) !! file = Some (X ++ text).
Proof. intros HX. simpl. by rewrite lookup_insert_eq, HX. Qed.

Lemma file_write_other (file text p : pystr) (w : world) :
  p ≠ file → fs (file_write file text w) !! p = fs w !! p.
Proof. intros Hp. simpl. by rewrite lookup_insert_ne. Qed.

(** The three writes of the [with] block add the block of the text. *)
Lemma append_code_spec (file code : pystr) (w : world) :
  ∃ evs, trace (append_code file code w) = trace w ++ evs
    ∧ Forall (fun e => is_write_text e = false) evs
    ∧ Forall (fun e => is_generate e = false) evs
    ∧ returned_texts evs = []
    ∧ concat (writes_of file evs) = unit_block code
    ∧ (∀ p, p ≠ file → fs (append_code file code w) !! p = fs w !! p)
    ∧ (∀ X, fs w !! file = Some X →
            fs (append_code file code w) !! file = Some (X ++ unit_block code)).
Proof.
  unfold append_code, unit_block.
  destruct (endswith code LF); simpl.
  - exists [EvFileWrite file code; EvFileWrite file (LF ++ LF)].
    split_and!.
    + by rewrite <- app_assoc.
    + by repeat constructor.
    + by repeat constructor.
    + done.
    + change [EvFileWrite file code; EvFileWrite file (LF ++ LF)]
        with ([EvFileWrite file code] ++ [EvFileWrite file (LF ++ LF)]).
      by rewrite writes_of_app, !writes_of_self.
    + intros p Hp. by rewrite !lookup_insert_ne.
    + intros X HX. rewrite !lookup_insert_eq, HX. simpl.
      by rewrite <- app_assoc.
  - exists [EvFileWrite file code; EvFileWrite file LF;
            EvFileWrite file (LF ++ LF)].
    split_and!.
    + by rewrite <- !app_assoc.
    + by repeat constructor.
    + by repeat constructor.
    + done.
    + change [EvFileWrite file code; EvFileWrite file LF;
              EvFileWrite file (LF ++ LF)]
        with ([EvFileWrite file code] ++ [EvFileWrite file LF]
              ++ [EvFileWrite file (LF ++ LF)]).
      by rewrite !writes_of_app, !writes_of_self.
    + intros p Hp. by rewrite !lookup_insert_ne.
    + intros X HX. rewrite !lookup_insert_eq, HX. simpl.
      by rewrite <- !app_assoc.
Qed.

Section Generation.

Variable generate_code : list event → pystr → outcome pystr.
Variables (app_label file : pystr) (model_name_filter : option pystr).

Abbreviation step := (generate_for_model generate_code app_label file
                                         model_name_filter).
Abbreviation loop := (generate_loop generate_code app_label file
                                    model_name_filter).

(** A unit the [--model] filter does not name is passed over silently. *)
Lemma step_filtered (model : Model) (w : world) :
  ¬ passes model_name_filter model → step model w = (Next, w).
Proof.
  intros Hf. unfold generate_for_model, passes in *.
  destruct model_name_filter as [f|]; simpl in *; [|tauto].
  destruct (truthy f); simpl; [|tauto].
  unfold str_eqb. rewrite bool_decide_eq_false_2; [done|].
  intros Heq. apply Hf. right. by rewrite Heq.
Qed.

Lemma passes_guard (model : Model) :
  passes model_name_filter model →
  truthy_opt model_name_filter
  && negb (str_eqb (model_name model) (default [] model_name_filter)) = false.
Proof.
  intros [H| ->]; [by rewrite H|].
  simpl. unfold str_eqb. rewrite bool_decide_eq_true_2 by done.
  apply andb_false_r.
Qed.

(** The four ways a call can end, for a unit that passes the filter. *)
Lemma step_config_error (model : Model) (w : world) (e : pystr) :
  passes model_name_filter model →
  generate_code (trace (at_call app_label model w)) (prompt_of app_label model)
    = RaiseConfig e →
  step model w
  = (Stop, stdout_write ERROR (MsgException e)
             (emit (EvGenerate (prompt_of app_label model) (RaiseConfig e))
                   (at_call app_label model w))).
Proof.
  intros Hp Hg. unfold generate_for_model.
  rewrite (passes_guard _ Hp).
  fold (prompt_of app_label model). fold (at_call app_label model w).
  by rewrite Hg.
Qed.

Lemma step_other_error (model : Model) (w : world) (e : pystr) :
  passes model_name_filter model →
  generate_code (trace (at_call app_label model w)) (prompt_of app_label model)
    = RaiseOther e →
  step model w
  = (Next, stdout_write ERROR (MsgOpenAIError (model_name model) e)
             (emit (EvGenerate (prompt_of app_label model) (RaiseOther e))
                   (at_call app_label model w))).
Proof.
  intros Hp Hg. unfold generate_for_model.
  rewrite (passes_guard _ Hp).
  fold (prompt_of app_label model). fold (at_call app_label model w).
  by rewrite Hg.
Qed.

Lemma step_blank (model : Model) (w : world) (code : pystr) :
  passes model_name_filter model →
  generate_code (trace (at_call app_label model w)) (prompt_of app_label model)
    = Return code →
  strip code = [] →
  step model w
  = (Next, stdout_write WARNING (MsgNoCode app_label (model_name model))
             (emit (EvGenerate (prompt_of app_label model) (Return code))
                   (at_call app_label model w))).
Proof.
  intros Hp Hg Hs. unfold generate_for_model.
  rewrite (passes_guard _ Hp).
  fold (prompt_of app_label model). fold (at_call app_label model w).
  by rewrite Hg, Hs.
Qed.

Lemma step_written (model : Model) (w : world) (code : pystr) :
  passes model_name_filter model →
  generate_code (trace (at_call app_label model w)) (prompt_of app_label model)
    = Return code →
  strip code ≠ [] →
  step model w
  = (Next, stdout_write SUCCESS (MsgWrote app_label (model_name model) file)
             (append_code file code
                (emit (EvGenerate (prompt_of app_label model) (Return code))
                      (at_call app_label model w)))).
Proof.
  intros Hp Hg Hs. unfold generate_for_model.
  rewrite (passes_guard _ Hp).
  fold (prompt_of app_label model). fold (at_call app_label model w).
  rewrite Hg. apply truthy_true in Hs. by rewrite Hs.
Qed.

Lemma passes_dec (model : Model) :
  passes model_name_filter model ∨ ¬ passes model_name_filter model.
Proof.
  unfold passes. destruct (truthy_opt model_name_filter); [|by left; left].
  destruct (decide (model_name_filter = Some (model_name model)));
    [by left; right | right; intros [?|?]; done].
Qed.

(** One turn of the loop makes at most one call, rewrites no file, and
    appends to the artifact the block of the text it got, if any. *)
Lemma step_appended (model : Model) (w : world) :
  ∃ evs, appended_to file w (snd (step model w)) evs ∧ calls_in evs ≤ 1.
Proof.
  destruct (passes_dec model) as [Hp|Hp].
  2: { rewrite (step_filtered _ _ Hp). exists []. split; [apply appended_to_refl|].
       unfold calls_in. simpl. lia. }
  destruct (generate_code (trace (at_call app_label model w))
                          (prompt_of app_label model)) as [code|e|e] eqn:Hg.
  - destruct (decide (strip code = [])) as [Hs|Hs].
    + rewrite (step_blank _ _ _ Hp Hg Hs).
      exists [EvStdout NOTICE (MsgGenerating app_label (model_name model));
              EvGenerate (prompt_of app_label model) (Return code);
              EvStdout WARNING (MsgNoCode app_label (model_name model))].
      split; [|unfold calls_in; simpl; lia].
      unfold appended_to. simpl. rewrite <- !app_assoc. simpl.
      apply truthy_false in Hs. unfold returned_texts. simpl. rewrite Hs.
      split_and!; [done | by repeat constructor | done | | done].
      intros X HX. by rewrite app_nil_r.
    + rewrite (step_written _ _ _ Hp Hg Hs). cbn [snd].
      set (w1 := emit _ (at_call app_label model w)).
      destruct (append_code_spec file code w1)
        as (evs & Ht & Hw & Hng & Hr & Hc & Ho & Hf).
      exists ([EvStdout NOTICE (MsgGenerating app_label (model_name model));
               EvGenerate (prompt_of app_label model) (Return code)]
              ++ evs
              ++ [EvStdout SUCCESS (MsgWrote app_label (model_name model) file)]).
      assert (Hw1 : trace w1 = trace w
                ++ [EvStdout NOTICE (MsgGenerating app_label (model_name model));
                    EvGenerate (prompt_of app_label model) (Return code)]).
      { subst w1. unfold emit, at_call, stdout_write, emit. cbn [fs trace].
        by rewrite <- app_assoc. }
      assert (Hfs1 : fs w1 = fs w) by done.
      split.
      * unfold appended_to, stdout_write, emit. cbn [fs trace].
        rewrite Ht, Hw1, Hfs1 in *.
        rewrite !writes_of_app, !returned_texts_app, Hr.
        apply truthy_true in Hs.
        assert (Hrt : returned_texts
                  [EvStdout NOTICE (MsgGenerating app_label (model_name model));
                   EvGenerate (prompt_of app_label model) (Return code)]
                = [code]).
        { unfold returned_texts. simpl. by rewrite Hs. }
        rewrite Hrt. clearbody w1.
        change (writes_of file
                  [EvStdout NOTICE (MsgGenerating app_label (model_name model));
                   EvGenerate (prompt_of app_label model) (Return code)])
          with (@nil pystr).
        change (writes_of file
                  [EvStdout SUCCESS (MsgWrote app_label (model_name model) file)])
          with (@nil pystr).
        change (returned_texts
                  [EvStdout SUCCESS (MsgWrote app_label (model_name model) file)])
          with (@nil pystr).
        rewrite !app_nil_r, !app_nil_l, Hc.
        split_and!.
        -- by rewrite <- !app_assoc.
        -- repeat constructor. apply Forall_app. split; [done|by repeat constructor].
        -- intros p Hpf. by rewrite Ho.
        -- intros X HX. by rewrite (Hf X).
        -- cbn [List.map concat]. by rewrite app_nil_r.
      * unfold calls_in. rewrite !List.filter_app, !length_app. simpl.
        rewrite (filter_none is_generate evs); [simpl; lia|].
        intros x Hx. rewrite Forall_forall in Hng.
        by apply Hng, list_elem_of_In.
  - rewrite (step_config_error _ _ _ Hp Hg).
    exists [EvStdout NOTICE (MsgGenerating app_label (model_name model));
            EvGenerate (prompt_of app_label model) (RaiseConfig e);
            EvStdout ERROR (MsgException e)].
    split; [|unfold calls_in; simpl; lia].
    unfold appended_to. simpl. rewrite <- !app_assoc. simpl.
    split_and!; [done | by repeat constructor | done | | done].
    intros X HX. by rewrite app_nil_r.
  - rewrite (step_other_error _ _ _ Hp Hg).
    exists [EvStdout NOTICE (MsgGenerating app_label (model_name model));
            EvGenerate (prompt_of app_label model) (RaiseOther e);
            EvStdout ERROR (MsgOpenAIError (model_name model) e)].
    split; [|unfold calls_in; simpl; lia].
    unfold appended_to. simpl. rewrite <- !app_assoc. simpl.
    split_and!; [done | by repeat constructor | done | | done].
    intros X HX. by rewrite app_nil_r.
Qed.

Lemma loop_appended (models : list Model) (w : world) :
  ∃ evs, appended_to file w (loop models w) evs.
Proof.
  revert w. induction models as [|model rest IH]; intros w; simpl.
  - exists []. apply appended_to_refl.
  - destruct (step_appended model w) as (evs1 & H1 & _).
    destruct (step model w) as [[|] w1]; simpl in H1.
    + destruct (IH w1) as (evs2 & H2).
      exists (evs1 ++ evs2). by eapply appended_to_trans.
    + by exists evs1.
Qed.

End Generation.

(* ===================================================================== *)
(** ** Printing and growing *)
(* ===================================================================== *)

Lemma only_prints_refl (w : world) : only_prints w w [].
Proof. unfold only_prints. by rewrite app_nil_r. Qed.

Lemma only_prints_trans (w1 w2 w3 : world) (evs1 evs2 : list event) :
  only_prints w1 w2 evs1 → only_prints w2 w3 evs2 →
  only_prints w1 w3 (evs1 ++ evs2).
Proof.
  intros (Hf1 & Ht1 & Ho1) (Hf2 & Ht2 & Ho2). unfold only_prints.
  split_and!; [congruence | by rewrite Ht2, Ht1, app_assoc | by apply Forall_app].
Qed.

Lemma stdout_write_only_prints (st : style) (m : message) (w : world) :
  only_prints w (stdout_write st m w) [EvStdout st m].
Proof. unfold only_prints. by repeat constructor. Qed.

Lemma print_models_only_prints (models : list Model) (w : world) :
  ∃ evs, only_prints w (print_models models w) evs.
Proof.
  unfold print_models. destruct models as [|m ms] eqn:E.
  { eexists. apply stdout_write_only_prints. }
  rewrite <- E. clear E. revert w.
  induction models as [|model rest IH]; intros w; simpl.
  - exists []. apply only_prints_refl.
  - destruct (IH (stdout_write PLAIN (MsgModel (model_name model)) w))
      as (evs & H).
    eexists. eapply only_prints_trans; [apply stdout_write_only_prints | exact H].
Qed.

Lemma scan_only_prints (app_configs : list AppConfig) (include_empty : bool)
    (st : scan_state) (w : world) :
  ∃ evs, only_prints w (snd (scan app_configs include_empty st w)) evs.
Proof.
  revert st w. induction app_configs as [|app rest IH]; intros st w; simpl.
  - exists []. apply only_prints_refl.
  - destruct (_ && negb include_empty); [apply IH|].
    set (w1 := stdout_write SUCCESS (MsgApp (label app)) w).
    destruct (print_models_only_prints (get_models app) w1) as (evs2 & H2).
    set (w2 := print_models (get_models app) w1) in *.
    set (w3 := stdout_write PLAIN MsgBlank w2).
    destruct (IH {| total_apps := total_apps st + 1;
                    total_models := total_models st
                                    + Z.of_nat (length (get_models app));
                    app_models_map := dict_set app (get_models app)
                                        (app_models_map st) |} w3)
      as (evs4 & H4).
    eexists.
    eapply only_prints_trans; [apply stdout_write_only_prints|].
    eapply only_prints_trans; [exact H2|].
    eapply only_prints_trans; [apply stdout_write_only_prints | exact H4].
Qed.

Lemma estimate_only_prints (total_models : Z) (w : world) :
  ∃ evs, only_prints w (estimate total_models w) evs.
Proof.
  unfold estimate. destruct (total_models =? 0)%Z.
  { eexists. apply stdout_write_only_prints. }
  destruct (est_cost _) as [cost|].
  - eexists. unfold only_prints. simpl. rewrite <- !app_assoc. simpl.
    split_and!; [done | done | by repeat constructor].
  - eexists. unfold only_prints. simpl. by repeat constructor.
Qed.

Lemma grows_refl (w : world) : grows w w.
Proof. intros p X HX. exists []. by rewrite app_nil_r. Qed.

Lemma grows_trans (w1 w2 w3 : world) : grows w1 w2 → grows w2 w3 → grows w1 w3.
Proof.
  intros H1 H2 p X HX.
  destruct (H1 _ _ HX) as (s1 & HX1). destruct (H2 _ _ HX1) as (s2 & HX2).
  exists (s1 ++ s2). by rewrite app_assoc.
Qed.

Lemma only_prints_grows (w w' : world) (evs : list event) :
  only_prints w w' evs → grows w w'.
Proof.
  intros (Hf & _) p X HX. exists []. by rewrite Hf, app_nil_r.
Qed.

Lemma appended_to_grows (file : pystr) (w w' : world) (evs : list event) :
  appended_to file w w' evs → grows w w'.
Proof.
  intros (_ & _ & Ho & Hf & _) p X HX.
  destruct (decide (p = file)) as [->|Hp].
  - eexists. by apply Hf.
  - exists []. by rewrite Ho, app_nil_r.
Qed.

Lemma write_text_grows (file content : pystr) (w : world) :
  fs w !! file = None → grows w (write_text file content w).
Proof.
  intros Hnone p X HX. exists []. simpl.
  rewrite lookup_insert_ne, app_nil_r; [done|]. congruence.
Qed.

Section App.

Variable generate_code : list event → pystr → outcome pystr.

Lemma file_exists_true (file : pystr) (w : world) (X : pystr) :
  fs w !! file = Some X → file_exists file w = true.
Proof. intros H. unfold file_exists. apply bool_decide_eq_true_2. eauto. Qed.

Lemma file_exists_false (file : pystr) (w : world) :
  fs w !! file = None → file_exists file w = false.
Proof.
  intros H. unfold file_exists. apply bool_decide_eq_false_2.
  rewrite H. by intros [? ?].
Qed.

(** The artifact is there: nothing is written but appended texts. *)
Lemma generate_for_app_existing (app : AppConfig) (models : list Model)
    (flt : option pystr) (w : world) (X : pystr) :
  fs w !! serializers_path (path app) = Some X →
  ∃ evs, appended_to (serializers_path (path app)) w
           (_generate_for_app generate_code app models flt w) evs.
Proof.
  intros HX. unfold _generate_for_app.
  rewrite (file_exists_true _ _ _ HX). simpl. apply loop_appended.
Qed.

(** The artifact is missing: the header is written first. *)
Lemma generate_for_app_missing (app : AppConfig) (models : list Model)
    (flt : option pystr) (w : world) :
  fs w !! serializers_path (path app) = None →
  ∃ evs,
    trace (_generate_for_app generate_code app models flt w)
      = trace w ++ EvWriteText (serializers_path (path app)) header :: evs
    ∧ appended_to (serializers_path (path app))
        (write_text (serializers_path (path app)) header w)
        (_generate_for_app generate_code app models flt w) evs.
Proof.
  intros Hnone. unfold _generate_for_app.
  rewrite (file_exists_false _ _ Hnone). cbn [negb].
  destruct (loop_appended generate_code (label app)
              (serializers_path (path app)) flt models
              (write_text (serializers_path (path app)) header w))
    as (evs & H).
  exists evs. split; [|exact H].
  destruct H as (Ht & _). rewrite Ht. simpl. by rewrite <- app_assoc.
Qed.

Lemma generate_for_app_grows (app : AppConfig) (models : list Model)
    (flt : option pystr) (w : world) :
  grows w (_generate_for_app generate_code app models flt w).
Proof.
  destruct (fs w !! serializers_path (path app)) as [X|] eqn:HX.
  - destruct (generate_for_app_existing app models flt w X HX) as (evs & H).
    by eapply appended_to_grows.
  - destruct (generate_for_app_missing app models flt w HX) as (evs & _ & H).
    eapply grows_trans; [by apply write_text_grows|].
    by eapply appended_to_grows.
Qed.

Lemma generation_phase_grows (items : list (AppConfig * list Model))
    (flt : option pystr) (w : world) :
  grows w (generation_phase generate_code items flt w).
Proof.
  unfold generation_phase. revert w.
  induction items as [|[app models] rest IH]; intros w; simpl.
  - apply grows_refl.
  - eapply grows_trans; [apply generate_for_app_grows | apply IH].
Qed.

Lemma handle_grows (settings : option UserConfig) (registry : list AppConfig)
    (options : Options) (confirmed : bool) (w : world) :
  grows w (handle generate_code settings registry options confirmed w).
Proof.
  unfold handle.
  set (w0 := stdout_write NOTICE MsgScanning w).
  assert (H0 : grows w w0) by (eapply only_prints_grows, stdout_write_only_prints).
  destruct (select _ _ _ _) as [|a l] eqn:Hsel.
  { eapply grows_trans; [exact H0|].
    eapply only_prints_grows, stdout_write_only_prints. }
  destruct (scan_only_prints (a :: l) (include_empty options)
              {| total_apps := 0; total_models := 0; app_models_map := [] |} w0)
    as (evs & Hscan).
  destruct (scan _ _ _ w0) as [st w1]. simpl in Hscan.
  assert (H1 : grows w w1).
  { eapply grows_trans; [exact H0 | by eapply only_prints_grows]. }
  destruct (total_apps st =? 0)%Z.
  { eapply grows_trans; [exact H1|].
    eapply only_prints_grows, stdout_write_only_prints. }
  set (w2 := stdout_write SUCCESS _ w1).
  assert (H2 : grows w w2).
  { eapply grows_trans; [exact H1|].
    eapply only_prints_grows, stdout_write_only_prints. }
  destruct (budget_only options).
  { destruct (estimate_only_prints (total_models st) w2) as (evs' & H).
    eapply grows_trans; [exact H2 | by eapply only_prints_grows]. }
  destruct (total_models st =? 0)%Z; [exact H2|].
  destruct (negb (yes options)); cbn [fst snd].
  - destruct confirmed.
    + eapply grows_trans; [exact H2|].
      eapply grows_trans; [|eapply only_prints_grows, stdout_write_only_prints].
      eapply grows_trans; [|apply generation_phase_grows].
      intros p X HX. exists []. by rewrite app_nil_r.
    + eapply grows_trans; [exact H2|].
      intros p X HX. exists []. by rewrite app_nil_r.
  - eapply grows_trans; [exact H2|].
    eapply grows_trans; [|eapply only_prints_grows, stdout_write_only_prints].
    apply generation_phase_grows.
Qed.

(** With [--budget-only] the command only prints: no call of
    [generate_code], no read of the operator's answer, no file touched. *)
Lemma handle_budget_only_prints (settings : option UserConfig)
    (registry : list AppConfig) (options : Options) (confirmed : bool)
    (w : world) :
  budget_only options = true →
  ∃ evs, only_prints w
           (handle generate_code settings registry options confirmed w) evs.
Proof.
  intros Hb. unfold handle. rewrite Hb.
  set (w0 := stdout_write NOTICE MsgScanning w).
  assert (H0 : only_prints w w0 [EvStdout NOTICE MsgScanning])
    by apply stdout_write_only_prints.
  destruct (select _ _ _ _) as [|a l] eqn:Hsel.
  { eexists. eapply only_prints_trans; [exact H0|].
    apply stdout_write_only_prints. }
  destruct (scan_only_prints (a :: l) (include_empty options)
              {| total_apps := 0; total_models := 0; app_models_map := [] |} w0)
    as (evs & Hscan).
  destruct (scan _ _ _ w0) as [st w1]. simpl in Hscan.
  destruct (total_apps st =? 0)%Z.
  { eexists. eapply only_prints_trans; [exact H0|].
    eapply only_prints_trans; [exact Hscan|]. apply stdout_write_only_prints. }
  set (w2 := stdout_write SUCCESS _ w1).
  destruct (estimate_only_prints (total_models st) w2) as (evs' & H).
  eexists. eapply only_prints_trans; [exact H0|].
  eapply only_prints_trans; [exact Hscan|].
  eapply only_prints_trans; [apply stdout_write_only_prints | exact H].
Qed.

End App.

(* ===================================================================== *)
(** ** The output artifact *)
(* ===================================================================== *)

Lemma writes_of_nil (file : pystr) (evs : list event) :
  (∀ text, ¬ In (EvFileWrite file text) evs) → writes_of file evs = [].
Proof.
  induction evs as [|e evs IH]; intros H; [done|].
  change (e :: evs) with ([e] ++ evs). rewrite writes_of_app, IH.
  - destruct e as [| |f text| | |]; try done.
    unfold writes_of, str_eqb. simpl.
    rewrite bool_decide_eq_false_2; [done|].
    intros ->. apply (H text). by left.
  - intros text Hin. apply (H text). by right.
Qed.

Lemma no_write_text_in (evs : list event) (f c : pystr) :
  Forall (fun e => is_write_text e = false) evs → ¬ In (EvWriteText f c) evs.
Proof.
  intros H Hin. rewrite Forall_forall in H.
  apply list_elem_of_In, H in Hin. done.
Qed.

(** C3.  A run never truncates or rewrites an output artifact.  For one
    collection: when the artifact exists with content [X], it ends up with
    [X] followed by one block per text the remote calls returned (the text,
    a line feed unless the text ends with one, and the two line feeds of
    the separator), and nothing is written with [write_text]; the only
    [write_text] a collection ever does is the header, into its own
    artifact, when that file does not exist.  For the whole command: every
    file keeps its former content as a prefix. *)
Theorem existing_artifact_is_only_appended
    (generate_code : list event → pystr → outcome pystr) :
  (∀ (app : AppConfig) (models : list Model) (flt : option pystr) (w : world),
     let file := serializers_path (path app) in
     let w' := _generate_for_app generate_code app models flt w in
     ∃ evs, trace w' = trace w ++ evs
       ∧ (∀ X, fs w !! file = Some X →
            fs w' !! file
              = Some (X ++ concat (List.map unit_block (returned_texts evs)))
            ∧ Forall (fun e => is_write_text e = false) evs)
       ∧ (∀ f c, In (EvWriteText f c) evs →
            fs w !! file = None ∧ f = file ∧ c = header)
       ∧ (∀ p, p ≠ file → fs w' !! p = fs w !! p))
  ∧ (∀ settings registry options confirmed (w : world),
       grows w (handle generate_code settings registry options confirmed w)).
Proof.
  split; [|intros; apply handle_grows].
  intros app models flt w. cbn zeta.
  destruct (fs w !! serializers_path (path app)) as [X|] eqn:HX.
  - destruct (generate_for_app_existing generate_code app models flt w X HX)
      as (evs & Ht & Hw & Ho & Hf & Hr).
    exists evs. split_and!; [done | | | done].
    + intros Y [= <-]. split; [|done]. by rewrite (Hf X HX), Hr.
    + intros f c Hin. by apply no_write_text_in in Hin.
  - destruct (generate_for_app_missing generate_code app models flt w HX)
      as (evs & Ht & _ & Hw & Ho & Hf & Hr).
    exists (EvWriteText (serializers_path (path app)) header :: evs).
    split_and!; [done | done | |].
    + intros f c [[= <- <-]|Hin]; [done|]. by apply no_write_text_in in Hin.
    + intros p Hp. rewrite (Ho p Hp). simpl. by rewrite lookup_insert_ne.
Qed.

(** A second run over the same app: the old content stays in front. *)
Example rerun_keeps_existing_content :
  let file := serializers_path (py "/srv/blog") in
  let X := header ++ py "class Old: pass" ++ LF in
  let Y := py "class PostSerializer: pass" in
  let w := World {[ file := X ]} [] in
  fs (handle (client (Some (py "sk")) [] (answering Y)) None [blog]
             run_options false w) !! file
  = Some (X ++ Y ++ LF ++ LF ++ LF).
Proof. vm_compute. reflexivity. Qed.

(** A text that ends with a line feed gets no extra one. *)
Example rerun_text_with_line_feed :
  let file := serializers_path (py "/srv/blog") in
  let Y := py "class PostSerializer: pass" ++ LF in
  let w := World {[ file := py "old" ]} [] in
  fs (handle (client (Some (py "sk")) [] (answering Y)) None [blog]
             run_options false w) !! file
  = Some (py "old" ++ Y ++ LF ++ LF).
Proof. vm_compute. reflexivity. Qed.

(** C10.  For every collection handed to the generator the artifact exists
    afterwards.  When it was missing, writing the header is the first thing
    that happens, before any remote call; the artifact then holds the
    header followed by what was appended, so it holds the header alone
    when no unit text was appended. *)
Theorem header_created_before_units
    (generate_code : list event → pystr → outcome pystr)
    (app : AppConfig) (models : list Model) (flt : option pystr) (w : world) :
  let file := serializers_path (path app) in
  let w' := _generate_for_app generate_code app models flt w in
  is_Some (fs w' !! file)
  ∧ (fs w !! file = None →
     ∃ evs, trace w' = trace w ++ EvWriteText file header :: evs
       ∧ Forall (fun e => is_write_text e = false) evs
       ∧ fs w' !! file = Some (header ++ concat (writes_of file evs))
       ∧ ((∀ text, ¬ In (EvFileWrite file text) evs) →
          fs w' !! file = Some header)).
Proof.
  cbn zeta.
  assert (Hh : fs (write_text (serializers_path (path app)) header w)
               !! serializers_path (path app) = Some header).
  { simpl. by rewrite lookup_insert_eq. }
  split.
  - destruct (fs w !! serializers_path (path app)) as [X|] eqn:HX.
    + destruct (generate_for_app_existing generate_code app models flt w X HX)
        as (evs & _ & _ & _ & Hf & _).
      rewrite (Hf X HX). eauto.
    + destruct (generate_for_app_missing generate_code app models flt w HX)
        as (evs & _ & _ & _ & _ & Hf & _).
      rewrite (Hf _ Hh). eauto.
  - intros HX.
    destruct (generate_for_app_missing generate_code app models flt w HX)
      as (evs & Ht & _ & Hw & _ & Hf & _).
    exists evs. split_and!; [done | done | by apply Hf |].
    intros Hno. rewrite (Hf _ Hh), (writes_of_nil _ _ Hno).
    cbn [concat]. by rewrite app_nil_r.
Qed.

Lemma header_created_before_units_witness :
  let file := serializers_path (py "/srv/blog") in
  let w' := _generate_for_app no_key_client blog [Post] None empty_world in
  ∃ evs, trace w' = [] ++ EvWriteText file header :: evs
    ∧ Forall (fun e => is_write_text e = false) evs
    ∧ fs w' !! file = Some (header ++ concat (writes_of file evs))
    ∧ ((∀ text, ¬ In (EvFileWrite file text) evs) →
       fs w' !! file = Some header).
Proof.
  apply (proj2 (header_created_before_units no_key_client blog [Post] None
                  empty_world)).
  reflexivity.
Defined.

(** The artifact of an app is created although its only unit is filtered
    out, fails, or comes back blank. *)
Example header_only_when_filtered_out :
  let w := _generate_for_app (client (Some (py "sk")) [] (answering (py "x")))
             blog [Post] (Some (py "Comment")) empty_world in
  fs w !! serializers_path (py "/srv/blog") = Some header
  ∧ trace w = [EvWriteText (serializers_path (py "/srv/blog")) header].
Proof. vm_compute. done. Qed.

Example header_only_when_call_fails :
  let down := fun _ => llm_client.RemoteRaise (py "timeout") in
  let w := _generate_for_app (client (Some (py "sk")) [] down)
             blog [Post] None empty_world in
  fs w !! serializers_path (py "/srv/blog") = Some header.
Proof. vm_compute. reflexivity. Qed.

Example header_only_when_response_blank :
  let w := _generate_for_app (client (Some (py "sk")) [] (answering (py "  ")))
             blog [Post] None empty_world in
  fs w !! serializers_path (py "/srv/blog") = Some header.
Proof. vm_compute. reflexivity. Qed.

(* ===================================================================== *)
(** ** Outcomes of a unit *)
(* ===================================================================== *)

(** C8.  A unit whose call returns an empty or white-space-only text is
    skipped: the turn ends with a warning, no file is changed, nothing is
    written, and the loop goes on with the next unit. *)
Theorem blank_response_is_skipped
    (generate_code : list event → pystr → outcome pystr)
    (app_label file : pystr) (flt : option pystr)
    (model : Model) (rest : list Model) (w : world) (code : pystr) :
  passes flt model →
  generate_code (trace (at_call app_label model w)) (prompt_of app_label model)
    = Return code →
  Forall (fun c => isspace c = true) code →
  let turn := generate_for_model generate_code app_label file flt model w in
  fst turn = Next
  ∧ fs (snd turn) = fs w
  ∧ trace (snd turn)
    = trace w ++ [EvStdout NOTICE (MsgGenerating app_label (model_name model));
                  EvGenerate (prompt_of app_label model) (Return code);
                  EvStdout WARNING (MsgNoCode app_label (model_name model))]
  ∧ generate_loop generate_code app_label file flt (model :: rest) w
    = generate_loop generate_code app_label file flt rest (snd turn).
Proof.
  intros Hp Hg Hblank. apply strip_nil_iff in Hblank. cbn zeta.
  cbn [generate_loop].
  rewrite (step_blank _ _ _ _ _ _ _ Hp Hg Hblank). cbn [fst snd].
  split_and!; [done | done | | done].
  unfold stdout_write, emit, at_call, stdout_write, emit. cbn [trace].
  by rewrite <- !app_assoc.
Qed.

Lemma blank_response_is_skipped_witness :
  let gen := client (Some (py "sk")) [] (answering (py "  " ++ LF)) in
  let file := serializers_path (py "/srv/blog") in
  let turn := generate_for_model gen (py "blog") file None Post
                (World {[ file := header ]} []) in
  fst turn = Next
  ∧ fs (snd turn) = fs (World {[ file := header ]} [])
  ∧ trace (snd turn)
    = [] ++ [EvStdout NOTICE (MsgGenerating (py "blog") (py "Post"));
             EvGenerate (prompt_of (py "blog") Post) (Return (py "  " ++ LF));
             EvStdout WARNING (MsgNoCode (py "blog") (py "Post"))]
  ∧ generate_loop gen (py "blog") file None [Post; Order]
      (World {[ file := header ]} [])
    = generate_loop gen (py "blog") file None [Order] (snd turn).
Proof.
  apply (blank_response_is_skipped
           (client (Some (py "sk")) [] (answering (py "  " ++ LF)))
           (py "blog") (serializers_path (py "/srv/blog")) None Post [Order]
           (World {[ serializers_path (py "/srv/blog") := header ]} [])
           (py "  " ++ LF)).
  - by left.
  - reflexivity.
  - repeat constructor.
Defined.

(** X23.  A configuration error ends the loop over the units of the
    collection: the units after the failing one are not attempted. *)
Lemma config_error_stops_collection
    (generate_code : list event → pystr → outcome pystr)
    (app_label file : pystr) (flt : option pystr)
    (model : Model) (rest : list Model) (w : world) (e : pystr) :
  passes flt model →
  generate_code (trace (at_call app_label model w)) (prompt_of app_label model)
    = RaiseConfig e →
  generate_loop generate_code app_label file flt (model :: rest) w
  = World (fs w)
      (trace w ++ [EvStdout NOTICE (MsgGenerating app_label (model_name model));
                   EvGenerate (prompt_of app_label model) (RaiseConfig e);
                   EvStdout ERROR (MsgException e)]).
Proof.
  intros Hp Hg. cbn [generate_loop].
  rewrite (step_config_error _ _ _ _ _ _ _ Hp Hg).
  unfold stdout_write, emit, at_call, stdout_write, emit. cbn [trace fs].
  by rewrite <- !app_assoc.
Qed.

(** X24.  Any other failure of the call skips the unit only: the failure
    is printed and the loop goes on with the next unit. *)
Lemma other_error_continues
    (generate_code : list event → pystr → outcome pystr)
    (app_label file : pystr) (flt : option pystr)
    (model : Model) (rest : list Model) (w : world) (e : pystr) :
  passes flt model →
  generate_code (trace (at_call app_label model w)) (prompt_of app_label model)
    = RaiseOther e →
  generate_loop generate_code app_label file flt (model :: rest) w
  = generate_loop generate_code app_label file flt rest
      (World (fs w)
         (trace w ++ [EvStdout NOTICE (MsgGenerating app_label (model_name model));
                      EvGenerate (prompt_of app_label model) (RaiseOther e);
                      EvStdout ERROR (MsgOpenAIError (model_name model) e)])).
Proof.
  intros Hp Hg. cbn [generate_loop].
  rewrite (step_other_error _ _ _ _ _ _ _ Hp Hg).
  unfold stdout_write, emit, at_call, stdout_write, emit. cbn [trace fs].
  by rewrite <- !app_assoc.
Qed.

(** Three units of one collection, the second call raising the
    configuration error: two calls are made, the third unit is not
    attempted. *)
Example second_of_three_raises_config :
  let gen := fun tr (_ : pystr) =>
    match calls_in tr with
    | 1 => RaiseConfig (py "no key")
    | _ => Return (py "class S: pass")
    end in
  let three := {| name := py "blog"; label := py "blog"; path := py "/srv/blog";
                  get_models := [Post; Order; Post] |} in
  List.filter is_generate
    (trace (_generate_for_app gen three (get_models three) None empty_world))
  = [EvGenerate (prompt_of (py "blog") Post) (Return (py "class S: pass"));
     EvGenerate (prompt_of (py "blog") Order) (RaiseConfig (py "no key"))].
Proof. vm_compute. reflexivity. Qed.

(** C1, evaluated.  No key is configured, so every call raises the
    configuration error.  With two selected collections the command still
    enters the second one after the error in the first: it creates the
    artifact of [shop] and calls [generate_code] for [shop.Order]. *)
Theorem config_error_reaches_later_collections :
  let w := handle no_key_client None [blog; shop] run_options false
                  empty_world in
  List.filter is_generate (trace w)
  = [EvGenerate (prompt_of (py "blog") Post)
                (RaiseConfig llm_client.no_key_message);
     EvGenerate (prompt_of (py "shop") Order)
                (RaiseConfig llm_client.no_key_message)]
  ∧ fs w !! serializers_path (py "/srv/shop") = Some header
  ∧ last (trace w) = Some (EvStdout SUCCESS MsgGenerationComplete).
Proof. vm_compute. done. Qed.

(* ===================================================================== *)
(** ** The generation map *)
(* ===================================================================== *)

Lemma dict_set_in (k : AppConfig) (v : list Model)
    (d : list (AppConfig * list Model)) (kv : AppConfig * list Model) :
  In kv (dict_set k v d) → kv = (k, v) ∨ In kv d.
Proof.
  unfold dict_set. destruct (existsb _ d).
  - intros H. apply in_map_iff in H as ([k' v'] & <- & Hin). simpl.
    case_bool_decide as Hk; simpl in *; [left; by subst | by right].
  - intros H. apply in_app_or in H as [H|[<-|[]]]; [by right | by left].
Qed.

(** Every entry of the map [scan] builds belongs to a selected collection
    and lists the units of that collection; it has units unless
    [--include-empty] was given. *)
Lemma scan_map_entries (app_configs : list AppConfig) (include_empty : bool)
    (st : scan_state) (w : world) (kv : AppConfig * list Model) :
  In kv (app_models_map (fst (scan app_configs include_empty st w))) →
  In kv (app_models_map st)
  ∨ (In (fst kv) app_configs ∧ snd kv = get_models (fst kv)
     ∧ (snd kv ≠ [] ∨ include_empty = true)).
Proof.
  revert st w. induction app_configs as [|app rest IH]; intros st w; simpl.
  - by left.
  - destruct (get_models app) as [|m ms] eqn:Hm;
      destruct include_empty; simpl.
    all: intros H; apply IH in H as [H|(Hin & Hs & He)];
      [| right; split_and!; [by right | done | done] ].
    all: try (by left).
    all: simpl in H; apply dict_set_in in H as [->|H]; [|by left].
    all: right; simpl; rewrite Hm; split_and!; [by left | done | by auto].
Qed.

(** X25.  Without [--include-empty] every entry of the generation map is
    a selected collection, with its units, and has at least one unit. *)
Lemma scan_map_without_empty (app_configs : list AppConfig) (w : world)
    (kv : AppConfig * list Model) :
  In kv (app_models_map
           (fst (scan app_configs false
                   {| total_apps := 0; total_models := 0; app_models_map := [] |}
                   w))) →
  In (fst kv) app_configs ∧ snd kv = get_models (fst kv) ∧ snd kv ≠ [].
Proof.
  intros H. apply scan_map_entries in H as [[]|(Hin & Hs & [He|He])]; done.
Qed.

(** C2, evaluated.  With [--include-empty], the app [pages], which has no
    model, is put into the map that drives the generation, next to [blog];
    the generation phase is entered for it and creates its artifact, which
    holds the header only. *)
Theorem empty_collection_enters_generation :
  let options := {| app_label := None; include_empty := true; yes := true;
                    opt_model_name := None; budget_only := false |} in
  let gen := client (Some (py "sk")) [] (answering (py "class S: pass")) in
  let scanned := scan [blog; pages] true
                   {| total_apps := 0; total_models := 0; app_models_map := [] |}
                   empty_world in
  let w := handle gen None [blog; pages] options false empty_world in
  app_models_map (fst scanned) = [(blog, [Post]); (pages, [])]
  ∧ fs w !! serializers_path (py "/srv/pages") = Some header
  ∧ List.filter is_write_text (trace w)
    = [EvWriteText (serializers_path (py "/srv/blog")) header;
       EvWriteText (serializers_path (py "/srv/pages")) header].
Proof. vm_compute. done. Qed.

(** Without the flag the same app gets no artifact. *)
Example empty_collection_left_alone :
  let gen := client (Some (py "sk")) [] (answering (py "class S: pass")) in
  let w := handle gen None [blog; pages] run_options false empty_world in
  fs w !! serializers_path (py "/srv/pages") = None.
Proof. vm_compute. reflexivity. Qed.

(** With the flag and no unit at all, nothing is generated or created. *)
Example only_empty_collections :
  let options := {| app_label := None; include_empty := true; yes := true;
                    opt_model_name := None; budget_only := false |} in
  let w := handle no_key_client None [pages] options false empty_world in
  fs w !! serializers_path (py "/srv/pages") = None.
Proof. vm_compute. reflexivity. Qed.

(* ===================================================================== *)
(** ** The estimate *)
(* ===================================================================== *)

(** C7.  For [n > 0] units the estimator reports [1000 * n] tokens and the
    cost [(1000 * n / 1000) * 0.0009], computed in binary64 from the token
    count converted to a float [t] (a conversion that is defined at least
    up to [2 ^ 53] tokens); for [n = 0] it reports that there is nothing to
    estimate and no number.  A run with [--budget-only] only prints: it
    makes no remote call and touches no file. *)
Theorem estimator_projection
    (generate_code : list event → pystr → outcome pystr) :
  (∀ (n : Z) (w : world),
     (0 < n)%Z →
     ((1000 * n < 2 ^ 53)%Z → is_Some (int_to_float (1000 * n)))
     ∧ ∀ t : float,
         int_to_float (1000 * n) = Some t →
         estimate n w
         = World (fs w)
             (trace w
              ++ [EvStdout NOTICE MsgBudgetHeader;
                  EvStdout PLAIN (MsgModelsToGenerate n);
                  EvStdout PLAIN (MsgEstimatedTokens (1000 * n));
                  EvStdout PLAIN MsgPricingModel;
                  EvStdout PLAIN (MsgEstimatedCost (t / 1000 * 0.0009)%float);
                  EvStdout SUCCESS MsgRoughEstimate]))
  ∧ (∀ w : world,
       estimate 0 w
       = World (fs w) (trace w ++ [EvStdout WARNING MsgNothingToEstimate]))
  ∧ (∀ settings registry options confirmed (w : world),
       budget_only options = true →
       ∃ evs, only_prints w
                (handle generate_code settings registry options confirmed w)
                evs).
Proof.
  split_and!.
  - intros n w Hn. split.
    { intros Hb. apply int_to_float_exact_range. lia. }
    intros t Ht. unfold estimate, est_cost, avg_tokens_per_model.
    destruct (Z.eqb_spec n 0) as [->|_]; [lia|].
    rewrite Z.mul_comm, Ht.
    unfold stdout_write, emit. cbn [fs trace].
    by rewrite <- !app_assoc.
  - done.
  - intros. by apply handle_budget_only_prints.
Qed.

Lemma estimator_projection_witness :
  estimate 3 empty_world
  = World ∅
      ([] ++ [EvStdout NOTICE MsgBudgetHeader;
              EvStdout PLAIN (MsgModelsToGenerate 3);
              EvStdout PLAIN (MsgEstimatedTokens (1000 * 3));
              EvStdout PLAIN MsgPricingModel;
              EvStdout PLAIN (MsgEstimatedCost (3000 / 1000 * 0.0009)%float);
              EvStdout SUCCESS MsgRoughEstimate]).
Proof.
  apply (proj2 (proj1 (estimator_projection no_key_client) 3%Z empty_world
                  ltac:(lia)) 3000%float).
  vm_compute. reflexivity.
Defined.

(** A budget-only run over two apps with one unit each. *)
Example budget_only_run :
  let options := {| app_label := None; include_empty := false; yes := false;
                    opt_model_name := None; budget_only := true |} in
  let w := handle no_key_client None [blog; shop; auth] options false
                  empty_world in
  fs w = ∅
  ∧ trace w
    = [EvStdout NOTICE MsgScanning;
       EvStdout SUCCESS (MsgApp (py "blog"));
       EvStdout PLAIN (MsgModel (py "Post"));
       EvStdout PLAIN MsgBlank;
       EvStdout SUCCESS (MsgApp (py "shop"));
       EvStdout PLAIN (MsgModel (py "Order"));
       EvStdout PLAIN MsgBlank;
       EvStdout SUCCESS (MsgScanComplete 2 2);
       EvStdout NOTICE MsgBudgetHeader;
       EvStdout PLAIN (MsgModelsToGenerate 2);
       EvStdout PLAIN (MsgEstimatedTokens 2000);
       EvStdout PLAIN MsgPricingModel;
       EvStdout PLAIN (MsgEstimatedCost (2000 / 1000 * 0.0009)%float);
       EvStdout SUCCESS MsgRoughEstimate].
Proof. vm_compute. done. Qed.

(* ===================================================================== *)
(** ** The run as a whole *)
(* ===================================================================== *)

(** The unit count the scan hands to the estimate and to the confirmation
    is the number of units of the selected collections. *)
Lemma scan_total_models (app_configs : list AppConfig) (include_empty : bool)
    (st : scan_state) (w : world) :
  total_models (fst (scan app_configs include_empty st w))
  = (total_models st
     + Z.of_nat (length (concat (List.map get_models app_configs))))%Z.
Proof.
  revert st w. induction app_configs as [|app rest IH]; intros st w; simpl.
  - lia.
  - destruct (get_models app) as [|m ms] eqn:Hm;
      destruct include_empty; simpl; rewrite IH; simpl;
      rewrite ?length_app; simpl; lia.
Qed.

(** The generation phase takes the collections of the map one after the
    other, whatever happened in the earlier ones. *)
Lemma generation_phase_cons
    (generate_code : list event → pystr → outcome pystr)
    (app : AppConfig) (models : list Model)
    (items : list (AppConfig * list Model)) (flt : option pystr) (w : world) :
  generation_phase generate_code ((app, models) :: items) flt w
  = generation_phase generate_code items flt
      (_generate_for_app generate_code app models flt w).
Proof. reflexivity. Qed.

(** A collection without units costs no remote call; its artifact is
    created all the same when it is missing. *)
Lemma generate_for_app_no_units
    (generate_code : list event → pystr → outcome pystr)
    (app : AppConfig) (flt : option pystr) (w : world) :
  fs w !! serializers_path (path app) = None →
  _generate_for_app generate_code app [] flt w
  = write_text (serializers_path (path app)) header w.
Proof.
  intros Hnone. unfold _generate_for_app.
  by rewrite (file_exists_false _ _ Hnone).
Qed.

(* ===================================================================== *)
(** ** More on the selection *)
(* ===================================================================== *)

Lemma filter_filter_and {A} (f g : A → bool) (l : list A) :
  List.filter f (List.filter g l) = List.filter (fun x => g x && f x) l.
Proof.
  induction l as [|x l IH]; simpl; [done|].
  destruct (g x); simpl; [destruct (f x)|]; by rewrite ?IH.
Qed.

Lemma filter_idem {A} (f : A → bool) (l : list A) :
  List.filter f (List.filter f l) = List.filter f l.
Proof.
  rewrite filter_filter_and. apply List.filter_ext.
  intros x. by destruct (f x).
Qed.

Lemma filter_sublist {A} (f : A → bool) (l : list A) :
  sublist (List.filter f l) l.
Proof.
  induction l as [|x l IH]; simpl; [constructor|].
  destruct (f x); by constructor.
Qed.

(** The selection is one filter, by the conjunction of the four tests. *)
Lemma select_as_filter (registry : list AppConfig)
    (include_apps : option (list pystr)) (app_label_filter : option pystr)
    (exclude_apps : gset pystr) :
  select registry include_apps app_label_filter exclude_apps
  = List.filter (keeps include_apps app_label_filter exclude_apps) registry.
Proof.
  unfold select, keeps.
  destruct include_apps as [[|x l]|];
    (destruct app_label_filter as [f|]; [destruct (truthy f)|]);
    rewrite ?filter_filter_and; apply List.filter_ext; intros app;
    rewrite ?andb_true_r, ?andb_assoc; done.
Qed.

Lemma select_as_filter_label (registry : list AppConfig)
    (include_apps : option (list pystr)) (f : pystr)
    (exclude_apps : gset pystr) (app : AppConfig) :
  f ≠ [] →
  In app (select registry include_apps (Some f) exclude_apps) →
  label app = f.
Proof.
  intros Hf. rewrite select_as_filter, filter_In. unfold keeps.
  apply truthy_true in Hf. rewrite Hf, !andb_true_iff.
  intros (_ & (_ & Hl) & _). by apply bool_decide_eq_true in Hl.
Qed.

(** X1.  A collection is selected exactly when it is registered, lies
    outside [django.contrib], has its label in the allow-list if that list
    is given and not empty, has the label of the [--app] filter if that
    filter is given and not empty, and has its label outside the
    exclude-set.  So an empty allow-list selects like no allow-list, and
    the exclude-set wins over the allow-list and over [--app]. *)
Theorem select_membership (registry : list AppConfig)
    (include_apps : option (list pystr)) (app_label_filter : option pystr)
    (exclude_apps : gset pystr) (app : AppConfig) :
  In app (select registry include_apps app_label_filter exclude_apps)
  ↔ In app registry
    ∧ startswith (name app) (py "django.contrib") = false
    ∧ (∀ allow, include_apps = Some allow → allow ≠ [] → In (label app) allow)
    ∧ (∀ f, app_label_filter = Some f → f ≠ [] → label app = f)
    ∧ label app ∉ exclude_apps.
Proof.
  rewrite select_as_filter, filter_In. unfold keeps, is_contrib.
  rewrite !andb_true_iff, negb_true_iff, negb_true_iff, bool_decide_eq_false.
  split.
  - intros (Hin & ((Hc & Ha) & Hf) & He). split_and!; [done | done | | | done].
    + intros allow -> Hne. destruct allow as [|x l]; [done|].
      apply bool_decide_eq_true in Ha. apply elem_of_list_to_set in Ha.
      by apply list_elem_of_In.
    + intros f -> Hne. apply truthy_true in Hne. rewrite Hne in Hf.
      by apply bool_decide_eq_true in Hf.
  - intros (Hin & Hc & Ha & Hf & He). split_and!; [done | done | | | done].
    + destruct include_apps as [[|x l]|]; [done | | done].
      apply bool_decide_eq_true, elem_of_list_to_set, list_elem_of_In.
      by apply Ha.
    + destruct app_label_filter as [f|]; [|done].
      destruct (truthy f) eqn:Ht; [|done].
      apply bool_decide_eq_true, Hf; [done|]. by apply truthy_true.
Qed.

(** X2.  The selection keeps the order of the registry: it is the
    registry with some entries left out. *)
Theorem select_keeps_registry_order (registry : list AppConfig)
    (include_apps : option (list pystr)) (app_label_filter : option pystr)
    (exclude_apps : gset pystr) :
  sublist (select registry include_apps app_label_filter exclude_apps)
          registry.
Proof. rewrite select_as_filter. apply filter_sublist. Qed.

(** X3.  Selecting again from a selection, with the same policy, changes
    nothing. *)
Theorem select_idempotent (registry : list AppConfig)
    (include_apps : option (list pystr)) (app_label_filter : option pystr)
    (exclude_apps : gset pystr) :
  select (select registry include_apps app_label_filter exclude_apps)
         include_apps app_label_filter exclude_apps
  = select registry include_apps app_label_filter exclude_apps.
Proof. rewrite !select_as_filter. apply filter_idem. Qed.

Lemma map_sublist {A B} (f : A → B) (l k : list A) :
  sublist l k → sublist (List.map f l) (List.map f k).
Proof. induction 1; simpl; by constructor. Qed.

Lemma all_equal_NoDup_length {A} (l : list A) (a : A) :
  NoDup l → (∀ x, In x l → x = a) → length l ≤ 1.
Proof.
  intros Hnd Hall. destruct l as [|x [|y l]]; simpl; [lia | lia |].
  exfalso. rewrite (Hall x), (Hall y) in Hnd by (simpl; auto).
  apply NoDup_cons in Hnd as [Hnd _]. apply Hnd. by left.
Qed.

(** X4.  When the labels of the registry are distinct, a non-empty [--app]
    filter selects at most one collection, and it has that label. *)
Theorem select_cli_at_most_one (registry : list AppConfig)
    (include_apps : option (list pystr)) (f : pystr)
    (exclude_apps : gset pystr) :
  NoDup (List.map label registry) →
  f ≠ [] →
  length (select registry include_apps (Some f) exclude_apps) ≤ 1
  ∧ Forall (fun app => label app = f)
           (select registry include_apps (Some f) exclude_apps).
Proof.
  intros Hnd Hf.
  assert (Hall : Forall (fun app => label app = f)
                   (select registry include_apps (Some f) exclude_apps)).
  { apply Forall_forall. intros app Hin. apply list_elem_of_In in Hin.
    by apply select_as_filter_label in Hin. }
  split; [|done].
  rewrite <- (length_map label).
  apply (all_equal_NoDup_length _ f).
  - eapply sublist_NoDup; [exact Hnd|].
    apply map_sublist. rewrite select_as_filter. apply filter_sublist.
  - intros x Hx. apply in_map_iff in Hx as (app & <- & Happ).
    rewrite Forall_forall in Hall. by apply Hall, list_elem_of_In.
Qed.

Lemma select_cli_at_most_one_witness :
  length (select [blog; shop; auth] None (Some (py "shop")) ∅) ≤ 1
  ∧ Forall (fun app => label app = py "shop")
           (select [blog; shop; auth] None (Some (py "shop")) ∅).
Proof.
  apply select_cli_at_most_one.
  - apply (bool_decide_unpack _). vm_compute. exact I.
  - discriminate.
Defined.

(* ===================================================================== *)
(** ** More on the scan *)
(* ===================================================================== *)

Lemma scan_skip_test (include_empty : bool) (app : AppConfig) :
  match get_models app with [] => true | _ => false end && negb include_empty
  = negb (reported include_empty app).
Proof. unfold reported. by destruct (get_models app), include_empty. Qed.

Lemma scan_total_apps (app_configs : list AppConfig) (include_empty : bool)
    (st : scan_state) (w : world) :
  total_apps (fst (scan app_configs include_empty st w))
  = (total_apps st
     + Z.of_nat (length (List.filter (reported include_empty) app_configs)))%Z.
Proof.
  revert st w. induction app_configs as [|app rest IH]; intros st w;
    cbn [scan List.filter].
  - simpl. lia.
  - rewrite scan_skip_test.
    destruct (reported include_empty app); cbn [negb]; rewrite IH; simpl; lia.
Qed.

Lemma scan_units (app_configs : list AppConfig) (include_empty : bool)
    (st : scan_state) (w : world) :
  total_models (fst (scan app_configs include_empty st w))
  = (total_models st + Z.of_nat (length (units_of app_configs)))%Z.
Proof.
  unfold units_of.
  revert st w. induction app_configs as [|app rest IH]; intros st w;
    cbn [scan List.map concat].
  - simpl. lia.
  - rewrite scan_skip_test, length_app.
    destruct (reported include_empty app) eqn:Hr; cbn [negb]; rewrite IH.
    + simpl. lia.
    + unfold reported in Hr. destruct (get_models app); [simpl; lia | done].
Qed.

(** X5.  The scan counts every unit of the selected collections, once, and
    counts the collections that have units, or all of them under
    [--include-empty]. *)
Theorem scan_counts (app_configs : list AppConfig) (include_empty : bool)
    (w : world) :
  let st := fst (scan app_configs include_empty scan_start w) in
  total_models st = Z.of_nat (length (units_of app_configs))
  ∧ total_apps st
    = Z.of_nat (length (List.filter (reported include_empty) app_configs)).
Proof. cbn zeta. by rewrite scan_units, scan_total_apps. Qed.

Lemma dict_set_fresh (k : AppConfig) (v : list Model)
    (d : list (AppConfig * list Model)) :
  ¬ In k (List.map fst d) → dict_set k v d = d ++ [(k, v)].
Proof.
  intros Hk. unfold dict_set.
  destruct (existsb _ d) eqn:He; [|done].
  exfalso. apply Hk. apply existsb_exists in He as (kv & Hin & Heq).
  apply bool_decide_eq_true in Heq as <-. by apply in_map.
Qed.

Lemma scan_map_from (app_configs : list AppConfig) (include_empty : bool)
    (st : scan_state) (w : world) :
  NoDup app_configs →
  (∀ app, In app app_configs → ¬ In app (List.map fst (app_models_map st))) →
  app_models_map (fst (scan app_configs include_empty st w))
  = app_models_map st
    ++ List.map (fun app => (app, get_models app))
         (List.filter (reported include_empty) app_configs).
Proof.
  revert st w. induction app_configs as [|app rest IH]; intros st w Hnd Hk;
    cbn [scan List.filter].
  - simpl. by rewrite app_nil_r.
  - apply NoDup_cons in Hnd as [Happ Hnd].
    rewrite scan_skip_test.
    destruct (reported include_empty app); cbn [negb].
    + rewrite IH; [|done|].
      * cbn [app_models_map]. rewrite dict_set_fresh by (apply Hk; by left).
        by rewrite <- app_assoc.
      * intros a Ha. cbn [app_models_map].
        rewrite dict_set_fresh by (apply Hk; by left).
        rewrite List.map_app, in_app_iff. intros [Hin|[<-|[]]].
        -- by apply (Hk a); [right|].
        -- by apply Happ, list_elem_of_In.
    + apply IH; [done|]. intros a Ha. apply Hk. by right.
Qed.

(** X6.  When no collection is selected twice, the map that drives the
    generation lists, in the order of the selection, each collection that
    has units (each collection, under [--include-empty]) with its units. *)
Theorem scan_generation_map (app_configs : list AppConfig)
    (include_empty : bool) (w : world) :
  NoDup app_configs →
  app_models_map (fst (scan app_configs include_empty scan_start w))
  = List.map (fun app => (app, get_models app))
      (List.filter (reported include_empty) app_configs).
Proof.
  intros Hnd. rewrite scan_map_from; [done | done | ].
  intros app _ [].
Qed.

Lemma scan_generation_map_witness :
  app_models_map (fst (scan [blog; pages; shop] false scan_start empty_world))
  = List.map (fun app => (app, get_models app))
      (List.filter (reported false) [blog; pages; shop]).
Proof.
  apply scan_generation_map.
  apply (bool_decide_unpack _). vm_compute. exact I.
Defined.

(* ===================================================================== *)
(** ** The events of the generation *)
(* ===================================================================== *)

Lemma new_events_app (w w' : world) (evs : list event) :
  trace w' = trace w ++ evs → new_events w w' = evs.
Proof. intros H. unfold new_events. by rewrite H, drop_app_length. Qed.

Lemma passes_b_true (flt : option pystr) (model : Model) :
  passes_b flt model = true ↔ passes flt model.
Proof.
  unfold passes_b, passes. destruct flt as [f|]; simpl; [|by split; auto].
  destruct (truthy f) eqn:Ht; simpl; [|by split; auto].
  unfold str_eqb. rewrite negb_involutive, bool_decide_eq_true. split.
  - intros ->. by right.
  - intros [?|[= ->]]; done.
Qed.

Lemma passes_b_false (flt : option pystr) (model : Model) :
  passes_b flt model = false ↔ ¬ passes flt model.
Proof.
  rewrite <- passes_b_true. by destruct (passes_b flt model).
Qed.

Lemma append_code_trace (file code : pystr) (w : world) :
  trace (append_code file code w)
  = trace w ++ EvFileWrite file code
      :: (if endswith code LF then [] else [EvFileWrite file LF])
      ++ [EvFileWrite file (LF ++ LF)].
Proof.
  unfold append_code. destruct (endswith code LF); simpl;
    by rewrite <- ?app_assoc.
Qed.

Lemma unit_event_mono (generate_code : list event → pystr → outcome pystr)
    (app_label file : pystr) (flt : option pystr) (ms ms' : list Model)
    (e : event) :
  (∀ m, In m ms → In m ms') →
  unit_event generate_code app_label file flt ms e →
  unit_event generate_code app_label file flt ms' e.
Proof.
  intros Hsub. destruct e; simpl; try done.
  intros (m & tr & Hin & H). exists m, tr. split; [by apply Hsub | done].
Qed.

Section Events.

Variable generate_code : list event → pystr → outcome pystr.
Variables (app_label file : pystr) (model_name_filter : option pystr).

Abbreviation turn := (generate_for_model generate_code app_label file
                                         model_name_filter).
Abbreviation turns := (generate_loop generate_code app_label file
                                     model_name_filter).
Abbreviation of_unit := (unit_event generate_code app_label file
                                    model_name_filter).

(** One turn of the loop, by its events. *)
Lemma step_run (model : Model) (w : world) :
  ∃ evs,
    trace (snd (turn model w)) = trace w ++ evs
    ∧ Forall (of_unit [model]) evs
    ∧ (passes_b model_name_filter model = false →
       evs = [] ∧ fst (turn model w) = Next)
    ∧ (passes_b model_name_filter model = true → calls_in evs = 1)
    ∧ (fst (turn model w) = Stop →
       ∃ e, generate_code (trace (at_call app_label model w))
                          (prompt_of app_label model) = RaiseConfig e)
    ∧ (passes model_name_filter model →
       ∀ e, generate_code (trace (at_call app_label model w))
                          (prompt_of app_label model) = RaiseConfig e →
            fst (turn model w) = Stop).
Proof.
  destruct (passes_dec model_name_filter model) as [Hp|Hp].
  2: { rewrite (step_filtered _ _ _ _ _ _ Hp). exists [].
       apply passes_b_false in Hp.
       split_and!; [by rewrite app_nil_r | constructor | done
                   | congruence | done | intros H; by apply passes_b_false in Hp]. }
  pose proof Hp as Hb. apply passes_b_true in Hb.
  assert (Hcall : ∀ result,
    of_unit [model] (EvGenerate (prompt_of app_label model) result)
    ↔ ∃ tr, result = generate_code tr (prompt_of app_label model)).
  { intros result. simpl. split.
    - intros (m & tr & [<-|[]] & _ & _ & Hr). by exists tr.
    - intros (tr & Hr). exists model, tr. split_and!; [by left | done | done | done]. }
  destruct (generate_code (trace (at_call app_label model w))
                          (prompt_of app_label model)) as [code|e|e] eqn:Hg.
  - destruct (decide (strip code = [])) as [Hs|Hs].
    + rewrite (step_blank _ _ _ _ _ _ _ Hp Hg Hs). cbn [fst snd].
      exists [EvStdout NOTICE (MsgGenerating app_label (model_name model));
              EvGenerate (prompt_of app_label model) (Return code);
              EvStdout WARNING (MsgNoCode app_label (model_name model))].
      split_and!; [| | congruence | done | done | congruence].
      * unfold stdout_write, emit, at_call, stdout_write, emit. cbn [trace].
        by rewrite <- !app_assoc.
      * repeat constructor. apply Hcall. eexists. by rewrite <- Hg.
    + rewrite (step_written _ _ _ _ _ _ _ Hp Hg Hs). cbn [fst snd].
      exists ([EvStdout NOTICE (MsgGenerating app_label (model_name model));
               EvGenerate (prompt_of app_label model) (Return code)]
              ++ (EvFileWrite file code
                  :: (if endswith code LF then [] else [EvFileWrite file LF])
                  ++ [EvFileWrite file (LF ++ LF)])
              ++ [EvStdout SUCCESS (MsgWrote app_label (model_name model) file)]).
      split_and!; [| | congruence | | done | congruence].
      * unfold stdout_write at 1. unfold emit at 1. cbn [trace].
        rewrite append_code_trace.
        unfold stdout_write, emit, at_call, stdout_write, emit. cbn [trace].
        by rewrite <- !app_assoc.
      * repeat constructor; [apply Hcall; eexists; by rewrite <- Hg|].
        destruct (endswith code LF); by repeat constructor.
      * intros _. unfold calls_in. by destruct (endswith code LF).
  - rewrite (step_config_error _ _ _ _ _ _ _ Hp Hg). cbn [fst snd].
    exists [EvStdout NOTICE (MsgGenerating app_label (model_name model));
            EvGenerate (prompt_of app_label model) (RaiseConfig e);
            EvStdout ERROR (MsgException e)].
    split_and!; [| | congruence | done | eauto | done].
    + unfold stdout_write, emit, at_call, stdout_write, emit. cbn [trace].
      by rewrite <- !app_assoc.
    + repeat constructor. apply Hcall. eexists. by rewrite <- Hg.
  - rewrite (step_other_error _ _ _ _ _ _ _ Hp Hg). cbn [fst snd].
    exists [EvStdout NOTICE (MsgGenerating app_label (model_name model));
            EvGenerate (prompt_of app_label model) (RaiseOther e);
            EvStdout ERROR (MsgOpenAIError (model_name model) e)].
    split_and!; [| | congruence | done | done | congruence].
    + unfold stdout_write, emit, at_call, stdout_write, emit. cbn [trace].
      by rewrite <- !app_assoc.
    + repeat constructor. apply Hcall. eexists. by rewrite <- Hg.
Qed.

Lemma calls_in_app (evs1 evs2 : list event) :
  calls_in (evs1 ++ evs2) = calls_in evs1 + calls_in evs2.
Proof. unfold calls_in. by rewrite List.filter_app, length_app. Qed.

(** The loop over the units, by its events. *)
Lemma loop_run (models : list Model) (w : world) :
  ∃ evs,
    trace (turns models w) = trace w ++ evs
    ∧ Forall (of_unit models) evs
    ∧ calls_in evs ≤ length (List.filter (passes_b model_name_filter) models)
    ∧ (never_config generate_code →
       calls_in evs
       = length (List.filter (passes_b model_name_filter) models))
    ∧ (always_config generate_code →
       calls_in evs
       = Nat.min 1 (length (List.filter (passes_b model_name_filter) models))).
Proof.
  revert w. induction models as [|model rest IH]; intros w;
    cbn [generate_loop List.filter].
  - exists []. split_and!; [by rewrite app_nil_r | constructor | done..].
  - destruct (step_run model w) as (evs1 & Ht1 & Hu1 & Hskip & Hone & Hstop & Hcfg).
    assert (Hu1' : Forall (of_unit (model :: rest)) evs1).
    { eapply Forall_impl; [exact Hu1|]. intros e. apply unit_event_mono.
      intros m [<-|[]]. by left. }
    destruct (turn model w) as [[|] w1] eqn:Hturn; cbn [fst snd] in *.
    + destruct (IH w1) as (evs2 & Ht2 & Hu2 & Hle & Hnc & Hac).
      exists (evs1 ++ evs2).
      assert (Hu2' : Forall (of_unit (model :: rest)) evs2).
      { eapply Forall_impl; [exact Hu2|]. intros e. apply unit_event_mono.
        intros m Hm. by right. }
      rewrite calls_in_app.
      destruct (passes_b model_name_filter model) eqn:Hb.
      * rewrite (Hone eq_refl). cbn [length].
        split_and!; [by rewrite Ht2, Ht1, app_assoc | by apply Forall_app
                    | lia | intros H; rewrite (Hnc H); lia |].
        intros Hall. exfalso.
        destruct (Hall (trace (at_call app_label model w))
                       (prompt_of app_label model)) as (e & He).
        apply passes_b_true in Hb. by specialize (Hcfg Hb e He).
      * destruct (Hskip eq_refl) as [-> _]. simpl.
        split_and!; [by rewrite Ht2, Ht1, app_nil_r | done | lia
                    | done | done].
    + exists evs1.
      destruct (passes_b model_name_filter model) eqn:Hb.
      2: { by destruct (Hskip eq_refl) as [_ ?]. }
      rewrite (Hone eq_refl). cbn [length].
      split_and!; [done | done | lia | | intros _; lia].
      intros Hnever. exfalso. destruct (Hstop eq_refl) as (e & He).
      by apply Hnever in He.
Qed.

End Events.

Lemma header_writes_app (p : pystr) (evs1 evs2 : list event) :
  header_writes p (evs1 ++ evs2) = header_writes p evs1 + header_writes p evs2.
Proof. unfold header_writes. by rewrite List.filter_app, length_app. Qed.

Lemma unit_events_no_header
    (generate_code : list event → pystr → outcome pystr)
    (app_label file : pystr) (flt : option pystr) (models : list Model)
    (evs : list event) (p : pystr) :
  Forall (unit_event generate_code app_label file flt models) evs →
  header_writes p evs = 0.
Proof.
  induction 1 as [|e evs He _ IH]; [done|].
  change (e :: evs) with ([e] ++ evs). rewrite header_writes_app, IH.
  by destruct e.
Qed.

Lemma unit_events_quiet
    (generate_code : list event → pystr → outcome pystr)
    (app_label file : pystr) (flt : option pystr) (models : list Model)
    (evs : list event) :
  never_text generate_code →
  Forall (unit_event generate_code app_label file flt models) evs →
  returned_texts evs = [].
Proof.
  intros Hq. induction 1 as [|e evs He _ IH]; [done|].
  change (e :: evs) with ([e] ++ evs). rewrite returned_texts_app, IH.
  destruct e as [| | |prompt [code| |]| |]; try done.
  destruct He as (m & tr & _ & _ & _ & Hr). symmetry in Hr.
  apply Hq in Hr. unfold returned_texts. simpl. by rewrite Hr.
Qed.

Lemma unit_event_run_event
    (generate_code : list event → pystr → outcome pystr)
    (app : AppConfig) (models : list Model) (flt : option pystr) (e : event) :
  unit_event generate_code (label app) (serializers_path (path app)) flt
             models e →
  run_event generate_code [(app, models)] flt e.
Proof.
  destruct e; simpl; try done.
  - intros ->. exists app, models. split; [by left | done].
  - intros (m & tr & Hin & Hp & Hq & Hr). exists app, models, m, tr.
    split_and!; [by left | done..].
Qed.

Lemma run_event_mono (generate_code : list event → pystr → outcome pystr)
    (items items' : list (AppConfig * list Model)) (flt : option pystr)
    (e : event) :
  (∀ x, In x items → In x items') →
  run_event generate_code items flt e →
  run_event generate_code items' flt e.
Proof.
  intros Hsub. destruct e; simpl; try done.
  - intros [(app & models & Hin & Hf) Hc]. split; [|done].
    exists app, models. split; [by apply Hsub | done].
  - intros (app & models & Hin & Hf). exists app, models.
    split; [by apply Hsub | done].
  - intros (app & models & m & tr & Hin & H). exists app, models, m, tr.
    split; [by apply Hsub | done].
Qed.

Section Collections.

Variable generate_code : list event → pystr → outcome pystr.

(** The generation of one collection, by its events: the header when the
    artifact is missing, then the events of the loop. *)
Lemma app_run (app : AppConfig) (models : list Model) (flt : option pystr)
    (w : world) :
  let file := serializers_path (path app) in
  let w0 := if file_exists file w then w else write_text file header w in
  ∃ evs,
    trace (_generate_for_app generate_code app models flt w)
    = trace w ++ (if file_exists file w then [] else [EvWriteText file header])
              ++ evs
    ∧ Forall (unit_event generate_code (label app) file flt models) evs
    ∧ calls_in evs ≤ length (List.filter (passes_b flt) models)
    ∧ (never_config generate_code →
       calls_in evs = length (List.filter (passes_b flt) models))
    ∧ (always_config generate_code →
       calls_in evs = Nat.min 1 (length (List.filter (passes_b flt) models)))
    ∧ appended_to file w0
        (_generate_for_app generate_code app models flt w) evs.
Proof.
  cbn zeta. unfold _generate_for_app.
  set (file := serializers_path (path app)).
  set (w0 := if negb (file_exists file w) then write_text file header w else w).
  assert (Hw0 : w0 = if file_exists file w then w else write_text file header w).
  { subst w0. by destruct (file_exists file w). }
  rewrite <- Hw0.
  destruct (loop_run generate_code (label app) file flt models w0)
    as (evs & Ht & Hu & Hle & Hnc & Hac).
  destruct (loop_appended generate_code (label app) file flt models w0)
    as (evs' & Happ).
  assert (evs' = evs) as ->.
  { destruct Happ as (Ht' & _). rewrite Ht in Ht'. by apply app_inv_head in Ht'. }
  exists evs. split_and!; try done.
  rewrite Ht, Hw0. destruct (file_exists file w); simpl; [done|].
  by rewrite <- app_assoc.
Qed.

(** The facts the generation phase needs about one collection. *)
Lemma app_facts (app : AppConfig) (models : list Model) (flt : option pystr)
    (w : world) :
  let file := serializers_path (path app) in
  let w' := _generate_for_app generate_code app models flt w in
  ∃ evs,
    trace w' = trace w ++ evs
    ∧ Forall (run_event generate_code [(app, models)] flt) evs
    ∧ calls_in evs ≤ length (List.filter (passes_b flt) models)
    ∧ (∀ p, p ≠ file → fs w' !! p = fs w !! p)
    ∧ (∀ p, header_writes p evs ≤ 1
            ∧ (is_Some (fs w !! p) → header_writes p evs = 0)
            ∧ (header_writes p evs = 0 ∨ is_Some (fs w' !! p)))
    ∧ (never_text generate_code →
       ∀ p X, fs w !! p = Some X → fs w' !! p = Some X).
Proof.
  cbn zeta. destruct (app_run app models flt w)
    as (evs & Ht & Hu & Hle & _ & _ & Ha).
  cbn zeta in Ha. destruct Ha as (_ & _ & Ho & Hf & Hr).
  set (file := serializers_path (path app)) in *.
  exists ((if file_exists file w then [] else [EvWriteText file header]) ++ evs).
  assert (Hrun : Forall (run_event generate_code [(app, models)] flt) evs).
  { eapply Forall_impl; [exact Hu|]. intros e. apply unit_event_run_event. }
  assert (Hnh : ∀ p, header_writes p evs = 0).
  { intros p. by eapply unit_events_no_header. }
  destruct (fs w !! file) as [X0|] eqn:HX0.
  - rewrite (file_exists_true _ _ _ HX0) in *. change ([] ++ evs) with evs in *.
    split_and!; [done | done | done | done | |].
    + intros p. rewrite Hnh. split_and!; [lia | done | by left].
    + intros Hq p X HX. destruct (decide (p = file)) as [->|Hp].
      * rewrite (Hf _ HX), Hr, (unit_events_quiet _ _ _ _ _ _ Hq Hu).
        simpl. by rewrite app_nil_r.
      * by rewrite Ho.
  - rewrite (file_exists_false _ _ HX0) in *.
    assert (Hother : ∀ p, p ≠ file →
              fs (write_text file header w) !! p = fs w !! p).
    { intros p Hp. simpl. by rewrite lookup_insert_ne. }
    assert (Hh : fs (write_text file header w) !! file = Some header).
    { simpl. by rewrite lookup_insert_eq. }
    split_and!; [done | | | | |].
    + constructor; [|done]. simpl. split; [|done].
      exists app, models. split; [by left | done].
    + rewrite calls_in_app. unfold calls_in at 1. simpl. lia.
    + intros p Hp. by rewrite Ho, Hother.
    + intros p. rewrite header_writes_app, Hnh.
      unfold header_writes, str_eqb. simpl. case_bool_decide as Hp; simpl.
      * split_and!; [lia | | right].
        -- subst p. rewrite HX0. by intros [? ?].
        -- subst p. rewrite (Hf _ Hh). eauto.
      * split_and!; [lia | done | by left].
    + intros Hq p X HX.
      assert (p ≠ file) as Hp by congruence.
      by rewrite Ho, Hother.
Qed.

End Collections.

Section Phase.

Variable generate_code : list event → pystr → outcome pystr.

(** The generation phase, by its events and its files. *)
Lemma phase_run (all items : list (AppConfig * list Model))
    (flt : option pystr) (w : world) :
  (∀ x, In x items → In x all) →
  let w' := generation_phase generate_code items flt w in
  ∃ evs,
    trace w' = trace w ++ evs
    ∧ Forall (run_event generate_code all flt) evs
    ∧ calls_in evs
      ≤ length (List.filter (passes_b flt) (concat (List.map snd items)))
    ∧ (∀ p, (∀ app models, In (app, models) items →
                           p ≠ serializers_path (path app)) →
            fs w' !! p = fs w !! p)
    ∧ (∀ p, header_writes p evs ≤ 1
            ∧ (is_Some (fs w !! p) → header_writes p evs = 0))
    ∧ (never_text generate_code →
       ∀ p X, fs w !! p = Some X → fs w' !! p = Some X).
Proof.
  cbn zeta. revert w.
  induction items as [|[app models] rest IH]; intros w Hsub.
  - exists []. unfold generation_phase. simpl.
    split_and!; [by rewrite app_nil_r | constructor | done | done | | done].
    intros p. unfold header_writes. simpl. split; [lia | done].
  - rewrite generation_phase_cons.
    destruct (app_facts generate_code app models flt w)
      as (evs1 & Ht1 & Hr1 & Hc1 & Ho1 & Hh1 & Hq1).
    set (w1 := _generate_for_app generate_code app models flt w) in *.
    destruct (IH w1) as (evs2 & Ht2 & Hr2 & Hc2 & Ho2 & Hh2 & Hq2).
    { intros x Hx. apply Hsub. by right. }
    exists (evs1 ++ evs2). split_and!.
    + by rewrite Ht2, Ht1, app_assoc.
    + apply Forall_app. split; [|done].
      eapply Forall_impl; [exact Hr1|]. intros e. apply run_event_mono.
      intros x [<-|[]]. apply Hsub. by left.
    + rewrite calls_in_app. cbn [List.map concat snd].
      rewrite List.filter_app, length_app. lia.
    + intros p Hp. rewrite Ho2, Ho1; [done | |].
      * apply (Hp app models). by left.
      * intros a ms Hin. apply (Hp a ms). by right.
    + intros p. rewrite header_writes_app.
      destruct (Hh1 p) as (Hle1 & Hz1 & Hor1). destruct (Hh2 p) as (Hle2 & Hz2).
      assert (Hkeep : is_Some (fs w !! p) → is_Some (fs w1 !! p)).
      { intros [X HX].
        destruct (generate_for_app_grows generate_code app models flt w p X HX)
          as (sfx & Hs). subst w1. rewrite Hs. eauto. }
      split.
      * destruct Hor1 as [Hz|Hsome]; [lia|]. rewrite (Hz2 Hsome). lia.
      * intros Hsome. rewrite (Hz1 Hsome), (Hz2 (Hkeep Hsome)). lia.
    + intros Hq p X HX. apply (Hq2 Hq). by apply (Hq1 Hq).
Qed.

(** The three ways [handle] ends: having only printed; having asked and
    been told no; having gone through the generation phase. *)
Lemma handle_shape (settings : option UserConfig) (registry : list AppConfig)
    (options : Options) (confirmed : bool) (w : world) :
  let st := fst (scan (selection settings registry options)
                      (include_empty options) scan_start
                      (stdout_write NOTICE MsgScanning w)) in
  let w' := handle generate_code settings registry options confirmed w in
  (∃ evs, only_prints w w' evs)
  ∨ (yes options = false ∧ budget_only options = false ∧ confirmed = false
     ∧ ∃ evs w1, only_prints w w1 evs
         ∧ w' = stdout_write WARNING MsgAborted
                  (emit (EvInput (total_models st)) w1))
  ∨ (budget_only options = false
     ∧ (yes options = true ∨ confirmed = true)
     ∧ ∃ evs w1, only_prints w w1 evs
         ∧ w' = stdout_write SUCCESS MsgGenerationComplete
                  (generation_phase generate_code (app_models_map st)
                     (opt_model_name options)
                     (if yes options then w1
                      else emit (EvInput (total_models st)) w1))).
Proof.
  cbn zeta. unfold handle. fold (selection settings registry options).
  set (w0 := stdout_write NOTICE MsgScanning w).
  assert (H0 : only_prints w w0 [EvStdout NOTICE MsgScanning])
    by apply stdout_write_only_prints.
  destruct (selection settings registry options) as [|a l] eqn:Hsel.
  { left. eexists. eapply only_prints_trans; [exact H0|].
    apply stdout_write_only_prints. }
  destruct (scan_only_prints (a :: l) (include_empty options) scan_start w0)
    as (evs & Hscan).
  unfold scan_start in *.
  destruct (scan _ _ _ w0) as [st w1]. cbn [fst snd] in *.
  assert (H1 : only_prints w w1 ([EvStdout NOTICE MsgScanning] ++ evs))
    by (by eapply only_prints_trans).
  destruct (total_apps st =? 0)%Z.
  { left. eexists. eapply only_prints_trans; [exact H1|].
    apply stdout_write_only_prints. }
  set (w2 := stdout_write SUCCESS _ w1).
  assert (H2 : only_prints w w2
                 (([EvStdout NOTICE MsgScanning] ++ evs)
                  ++ [EvStdout SUCCESS
                        (MsgScanComplete (total_apps st) (total_models st))])).
  { eapply only_prints_trans; [exact H1|]. apply stdout_write_only_prints. }
  destruct (budget_only options).
  { left. destruct (estimate_only_prints (total_models st) w2) as (evs' & H).
    eexists. eapply only_prints_trans; [exact H2 | exact H]. }
  destruct (total_models st =? 0)%Z; [left; eauto|].
  destruct (yes options); cbn [negb fst snd].
  - right; right. split_and!; [done | by left |]. eexists _, w2; split; [exact H2 | done].
  - destruct confirmed.
    + right; right. split_and!; [done | by right |]. eexists _, w2; split; [exact H2 | done].
    + right; left. split_and!; [done..|]. eexists _, w2; split; [exact H2 | done].
Qed.

End Phase.

Lemma output_is_passive (evs : list event) :
  Forall (fun e => is_output e = true) evs →
  Forall (fun e => is_passive e = true) evs.
Proof. intros H. eapply Forall_impl; [exact H|]. by intros []. Qed.

Lemma passive_no_calls (evs : list event) :
  Forall (fun e => is_passive e = true) evs → calls_in evs = 0.
Proof.
  unfold calls_in. induction 1 as [|e evs He _ IH]; [done|].
  simpl. by destruct e.
Qed.

Lemma passive_no_header (p : pystr) (evs : list event) :
  Forall (fun e => is_passive e = true) evs → header_writes p evs = 0.
Proof.
  unfold header_writes. induction 1 as [|e evs He _ IH]; [done|].
  simpl. by destruct e.
Qed.

Lemma output_no_input (evs : list event) :
  Forall (fun e => is_output e = true) evs → List.filter is_input evs = [].
Proof. induction 1 as [|e evs He _ IH]; [done|]. simpl. by destruct e. Qed.

Lemma run_events_no_input
    (generate_code : list event → pystr → outcome pystr)
    (items : list (AppConfig * list Model)) (flt : option pystr)
    (evs : list event) :
  Forall (run_event generate_code items flt) evs →
  List.filter is_input evs = [].
Proof. induction 1 as [|e evs He _ IH]; [done|]. simpl. by destruct e. Qed.

Section Run.

Variable generate_code : list event → pystr → outcome pystr.

(** A run of the command, by its events and its files: what comes before
    the generation phase, the generation phase, what comes after. *)
Lemma handle_run (settings : option UserConfig) (registry : list AppConfig)
    (options : Options) (confirmed : bool) (w : world) :
  let items :=
    app_models_map
      (fst (scan (selection settings registry options)
                 (include_empty options) scan_start
                 (stdout_write NOTICE MsgScanning w))) in
  let flt := opt_model_name options in
  let w' := handle generate_code settings registry options confirmed w in
  ∃ before during after,
    trace w' = trace w ++ before ++ during ++ after
    ∧ Forall (fun e => is_passive e = true) before
    ∧ Forall (fun e => is_output e = true) after
    ∧ length (List.filter is_input before) ≤ 1
    ∧ (yes options = true ∨ budget_only options = true →
       List.filter is_input before = [])
    ∧ (budget_only options = true
       ∨ (yes options = false ∧ confirmed = false) →
       during = [] ∧ fs w' = fs w)
    ∧ Forall (run_event generate_code items flt) during
    ∧ calls_in during
      ≤ length (List.filter (passes_b flt) (concat (List.map snd items)))
    ∧ (∀ p, (∀ app models, In (app, models) items →
                           p ≠ serializers_path (path app)) →
            fs w' !! p = fs w !! p)
    ∧ (∀ p, header_writes p during ≤ 1
            ∧ (is_Some (fs w !! p) → header_writes p during = 0))
    ∧ (never_text generate_code →
       ∀ p X, fs w !! p = Some X → fs w' !! p = Some X).
Proof.
  cbn zeta.
  destruct (handle_shape generate_code settings registry options confirmed w)
    as [(evs & Hf & Ht & Ho)
       |[(Hy & Hb & Hc & evs & w1 & (Hf & Ht & Ho) & ->)
        |(Hb & Hyc & evs & w1 & (Hf & Ht & Ho) & ->)]].
  - exists evs, [], [].
    split_and!.
    + by rewrite Ht, !app_nil_r.
    + by apply output_is_passive.
    + constructor.
    + rewrite output_no_input by done. simpl. lia.
    + intros _. by apply output_no_input.
    + done.
    + constructor.
    + unfold calls_in. simpl. lia.
    + intros p _. by rewrite Hf.
    + intros p. unfold header_writes. simpl. split; [lia | done].
    + intros _ p X HX. by rewrite Hf.
  - exists (evs ++ [EvInput (total_models
                     (fst (scan (selection settings registry options)
                                (include_empty options) scan_start
                                (stdout_write NOTICE MsgScanning w))))]),
           [], [EvStdout WARNING MsgAborted].
    split_and!.
    + unfold stdout_write, emit. cbn [trace]. rewrite Ht.
      by rewrite <- !app_assoc.
    + apply Forall_app. split; [by apply output_is_passive | by repeat constructor].
    + by repeat constructor.
    + rewrite List.filter_app, length_app, output_no_input by done. simpl. lia.
    + intros [H|H]; congruence.
    + done.
    + constructor.
    + unfold calls_in. simpl. lia.
    + intros p _. simpl. by rewrite Hf.
    + intros p. unfold header_writes. simpl. split; [lia | done].
    + intros _ p X HX. simpl. by rewrite Hf.
  - set (n := total_models _).
    set (items := app_models_map _).
    set (w2 := if yes options then w1 else emit (EvInput n) w1).
    assert (Hf2 : fs w2 = fs w) by (subst w2; by destruct (yes options)).
    assert (Ht2 : trace w2
              = trace w ++ evs ++ (if yes options then [] else [EvInput n])).
    { subst w2. destruct (yes options); simpl; rewrite Ht;
        by rewrite ?app_nil_r, <- ?app_assoc. }
    destruct (phase_run generate_code items items (opt_model_name options) w2)
      as (during & Htd & Hrd & Hcd & Hod & Hhd & Hqd); [done|].
    exists (evs ++ (if yes options then [] else [EvInput n])), during,
           [EvStdout SUCCESS MsgGenerationComplete].
    split_and!.
    + unfold stdout_write, emit. cbn [trace]. rewrite Htd, Ht2.
      by rewrite <- !app_assoc.
    + apply Forall_app. split; [by apply output_is_passive|].
      destruct (yes options); by repeat constructor.
    + by repeat constructor.
    + rewrite List.filter_app, length_app, output_no_input by done.
      destruct (yes options); simpl; lia.
    + intros [H|H]; [|congruence]. rewrite H, app_nil_r.
      by apply output_no_input.
    + intros [H|[H1 H2]]; [congruence|]. destruct Hyc; congruence.
    + done.
    + done.
    + intros p Hp. cbn [stdout_write emit fs]. rewrite <- Hf2. by apply Hod.
    + intros p. rewrite <- Hf2. apply Hhd.
    + intros Hq p X HX. cbn [stdout_write emit fs].
      apply (Hqd Hq). by rewrite Hf2.
Qed.

End Run.

(* ===================================================================== *)
(** ** A run of the command *)
(* ===================================================================== *)

Lemma dict_set_same (k : AppConfig) (d : list (AppConfig * list Model)) :
  (∀ kv, In kv d → snd kv = get_models (fst kv)) →
  In k (List.map fst d) →
  dict_set k (get_models k) d = d.
Proof.
  intros Hinv Hk. unfold dict_set.
  destruct (existsb _ d) eqn:He.
  - rewrite <- (List.map_id d) at 2. apply List.map_ext_in.
    intros [k' v'] Hin. pose proof (Hinv _ Hin) as Hv. simpl in Hv.
    case_bool_decide as Heq; [|done].
    simpl in Heq. subst k' v'. done.
  - exfalso. apply in_map_iff in Hk as (kv & <- & Hin).
    assert (existsb (fun kv0 => bool_decide (fst kv0 = fst kv)) d = true);
      [|congruence].
    apply existsb_exists. exists kv. split; [done|].
    by apply bool_decide_eq_true.
Qed.

Lemma scan_map_units_le (f : Model → bool) (app_configs : list AppConfig)
    (include_empty : bool) (st : scan_state) (w : world) :
  (∀ kv, In kv (app_models_map st) → snd kv = get_models (fst kv)) →
  length (List.filter f
            (concat (List.map snd
               (app_models_map (fst (scan app_configs include_empty st w))))))
  ≤ length (List.filter f (concat (List.map snd (app_models_map st))))
    + length (List.filter f (units_of app_configs)).
Proof.
  unfold units_of.
  revert st w. induction app_configs as [|app rest IH]; intros st w Hinv;
    cbn [scan List.map concat].
  - simpl. lia.
  - rewrite scan_skip_test, List.filter_app, length_app.
    destruct (reported include_empty app); cbn [negb].
    + etrans; [apply IH|].
      * cbn [app_models_map]. intros kv Hin.
        apply dict_set_in in Hin as [->|Hin]; [done | by apply Hinv].
      * cbn [app_models_map].
        destruct (in_dec AppConfig_eq_dec app
                    (List.map fst (app_models_map st))) as [Hin|Hin].
        -- rewrite dict_set_same by done. lia.
        -- rewrite dict_set_fresh by done.
           rewrite List.map_app, concat_app, List.filter_app, length_app.
           simpl. rewrite app_nil_r. lia.
    + etrans; [by apply IH|]. lia.
Qed.

(** Every entry of the generation map of a run is a selected collection
    with its units. *)
Lemma run_map_entries (settings : option UserConfig)
    (registry : list AppConfig) (options : Options) (w : world)
    (app : AppConfig) (models : list Model) :
  In (app, models)
     (app_models_map
        (fst (scan (selection settings registry options)
                   (include_empty options) scan_start w))) →
  In app (selection settings registry options) ∧ models = get_models app.
Proof.
  intros H. apply scan_map_entries in H as [[]|(Hin & Hm & _)]. done.
Qed.

Section Runs.

Variable generate_code : list event → pystr → outcome pystr.
Variables (settings : option UserConfig) (registry : list AppConfig).
Variables (options : Options) (confirmed : bool) (w : world).

Abbreviation the_run :=
  (handle generate_code settings registry options confirmed w).

(** X7.  When no selected collection has a unit, the command only prints,
    whatever the flags: it does not ask, calls nothing, touches no file. *)
Theorem handle_nothing_to_generate :
  (∀ app, In app (selection settings registry options) →
          get_models app = []) →
  ∃ evs, only_prints w the_run evs.
Proof.
  intros Hempty.
  assert (Hunits : units_of (selection settings registry options) = []).
  { unfold units_of. induction (selection settings registry options)
      as [|a l IH]; [done|].
    simpl. rewrite (Hempty a) by (by left). apply IH.
    intros app Hin. apply Hempty. by right. }
  pose proof (scan_units (selection settings registry options)
                (include_empty options) scan_start
                (stdout_write NOTICE MsgScanning w)) as Htotal.
  rewrite Hunits in Htotal. simpl in Htotal.
  unfold handle. fold (selection settings registry options).
  set (w0 := stdout_write NOTICE MsgScanning w) in *.
  assert (H0 : only_prints w w0 [EvStdout NOTICE MsgScanning])
    by apply stdout_write_only_prints.
  destruct (selection settings registry options) as [|a l] eqn:Hsel.
  { eexists. eapply only_prints_trans; [exact H0|].
    apply stdout_write_only_prints. }
  destruct (scan_only_prints (a :: l) (include_empty options) scan_start w0)
    as (evs & Hscan).
  unfold scan_start in *.
  destruct (scan _ _ _ w0) as [st w1]. cbn [fst snd] in *.
  rewrite Htotal. cbn [Z.eqb].
  destruct (total_apps st =? 0)%Z.
  { eexists. eapply only_prints_trans; [exact H0|].
    eapply only_prints_trans; [exact Hscan|]. apply stdout_write_only_prints. }
  destruct (budget_only options).
  - eexists. eapply only_prints_trans; [exact H0|].
    eapply only_prints_trans; [exact Hscan|].
    eapply only_prints_trans; apply stdout_write_only_prints.
  - eexists. eapply only_prints_trans; [exact H0|].
    eapply only_prints_trans; [exact Hscan|]. apply stdout_write_only_prints.
Qed.

(** X8.  When the operator is asked and does not answer [y] or [yes], the
    run makes no remote call and leaves every file as it was. *)
Theorem handle_declined :
  yes options = false → confirmed = false →
  fs the_run = fs w
  ∧ Forall (fun e => is_passive e = true) (new_events w the_run).
Proof.
  intros Hy Hc.
  destruct (handle_run generate_code settings registry options confirmed w)
    as (before & during & after & Ht & Hb & Ha & _ & _ & Hno & _).
  destruct Hno as [-> Hfs]; [by right|].
  split; [done|]. rewrite (new_events_app _ _ _ Ht).
  apply Forall_app. split; [done | by apply output_is_passive].
Qed.

(** X9.  The operator is asked at most once in a run, and not at all
    under [--yes] or [--budget-only]. *)
Theorem handle_asks_at_most_once :
  length (List.filter is_input (new_events w the_run)) ≤ 1
  ∧ (yes options = true ∨ budget_only options = true →
     List.filter is_input (new_events w the_run) = []).
Proof.
  destruct (handle_run generate_code settings registry options confirmed w)
    as (before & during & after & Ht & Hb & Ha & Hone & Hnone & _ & Hr & _).
  rewrite (new_events_app _ _ _ Ht), !List.filter_app, !length_app.
  rewrite (run_events_no_input _ _ _ _ Hr), (output_no_input _ Ha).
  simpl. rewrite app_nil_r. split; [lia | done].
Qed.

(** X10.  A run calls the service at most once per unit of the selected
    collections that gets past the [--model] filter: nothing is retried. *)
Theorem handle_call_bound :
  calls_in (new_events w the_run)
  ≤ length (List.filter (passes_b (opt_model_name options))
              (units_of (selection settings registry options))).
Proof.
  destruct (handle_run generate_code settings registry options confirmed w)
    as (before & during & after & Ht & Hb & Ha & _ & _ & _ & _ & Hc & _).
  rewrite (new_events_app _ _ _ Ht), !calls_in_app.
  rewrite (passive_no_calls _ Hb), (passive_no_calls _ (output_is_passive _ Ha)).
  etrans; [|etrans; [apply (scan_map_units_le
                              (passes_b (opt_model_name options))
                              (selection settings registry options)
                              (include_empty options) scan_start
                              (stdout_write NOTICE MsgScanning w))|]].
  - lia.
  - by intros kv [].
  - simpl. lia.
Qed.

(** X11.  Every call of the service in a run carries the prompt of a unit
    of a selected collection that gets past the [--model] filter, and the
    trace records what the service answered. *)
Theorem handle_calls_are_for_selected_units :
  Forall (fun e =>
            match e with
            | EvGenerate prompt result =>
                ∃ app model tr,
                  In app (selection settings registry options)
                  ∧ In model (get_models app)
                  ∧ passes (opt_model_name options) model
                  ∧ prompt = prompt_of (label app) model
                  ∧ result = generate_code tr prompt
            | _ => True
            end)
         (new_events w the_run).
Proof.
  destruct (handle_run generate_code settings registry options confirmed w)
    as (before & during & after & Ht & Hb & Ha & _ & _ & _ & Hr & _).
  rewrite (new_events_app _ _ _ Ht). rewrite !Forall_app. split_and!.
  - eapply Forall_impl; [exact Hb|]. by intros [].
  - eapply Forall_impl; [exact Hr|]. intros [] He; try done.
    destruct He as (app & models & m & tr & Hin & Hm & Hp & Hq & Hres).
    apply run_map_entries in Hin as [Hsel ->]. by exists app, m, tr.
  - eapply Forall_impl; [exact Ha|]. by intros [].
Qed.

(** X12.  A run changes no file but the artifacts of the selected
    collections. *)
Theorem handle_touches_only_selected_artifacts (p : pystr) :
  (∀ app, In app (selection settings registry options) →
          p ≠ serializers_path (path app)) →
  fs the_run !! p = fs w !! p.
Proof.
  intros Hp.
  destruct (handle_run generate_code settings registry options confirmed w)
    as (before & during & after & _ & _ & _ & _ & _ & _ & _ & _ & Ho & _).
  apply Ho. intros app models Hin.
  apply run_map_entries in Hin as [Hsel _]. by apply Hp.
Qed.

(** X13.  In a run the header is written at most once into any file, and
    never into a file that was already there. *)
Theorem handle_header_at_most_once (p : pystr) :
  header_writes p (new_events w the_run) ≤ 1
  ∧ (is_Some (fs w !! p) → header_writes p (new_events w the_run) = 0).
Proof.
  destruct (handle_run generate_code settings registry options confirmed w)
    as (before & during & after & Ht & Hb & Ha & _ & _ & _ & _ & _ & _ & Hh & _).
  rewrite (new_events_app _ _ _ Ht), !header_writes_app.
  rewrite (passive_no_header _ _ Hb),
          (passive_no_header _ _ (output_is_passive _ Ha)).
  destruct (Hh p) as [Hle Hz]. split; [lia|].
  intros Hs. rewrite (Hz Hs). lia.
Qed.

(** X14.  When the service never returns a text with something else than
    white space (it fails, or answers blank), a run leaves the content of
    every existing file as it was. *)
Theorem handle_without_text_keeps_files (p X : pystr) :
  never_text generate_code →
  fs w !! p = Some X →
  fs the_run !! p = Some X.
Proof.
  intros Hq HX.
  destruct (handle_run generate_code settings registry options confirmed w)
    as (before & during & after & _ & _ & _ & _ & _ & _ & _ & _ & _ & _ & Hk).
  by apply Hk.
Qed.

End Runs.

Lemma handle_nothing_to_generate_witness :
  ∃ evs, only_prints empty_world
           (handle no_key_client None [pages; auth]
              {| app_label := None; include_empty := true; yes := true;
                 opt_model_name := None; budget_only := false |}
              false empty_world) evs.
Proof.
  apply handle_nothing_to_generate.
  intros app H. vm_compute in H. destruct H as [<-|[]]. reflexivity.
Defined.

Lemma handle_declined_witness :
  let options := {| app_label := None; include_empty := false; yes := false;
                    opt_model_name := None; budget_only := false |} in
  let w' := handle (client (Some (py "sk")) [] (answering (py "class S: pass")))
              None [blog; shop] options false empty_world in
  fs w' = fs empty_world
  ∧ Forall (fun e => is_passive e = true) (new_events empty_world w').
Proof. apply handle_declined; reflexivity. Defined.

Lemma handle_touches_only_selected_artifacts_witness :
  let w := World {[ py "/srv/blog/models.py" := py "class Post: pass" ]} [] in
  fs (handle (client (Some (py "sk")) [] (answering (py "class S: pass")))
        None [blog] run_options false w) !! py "/srv/blog/models.py"
  = fs w !! py "/srv/blog/models.py".
Proof.
  apply handle_touches_only_selected_artifacts.
  intros app H. vm_compute in H. destruct H as [<-|[]].
  intros Heq. vm_compute in Heq. discriminate Heq.
Defined.

Lemma handle_without_text_keeps_files_witness :
  let file := serializers_path (py "/srv/blog") in
  let w := World {[ file := py "class Old: pass" ]} [] in
  fs (handle no_key_client None [blog; shop] run_options false w) !! file
  = Some (py "class Old: pass").
Proof.
  apply handle_without_text_keeps_files.
  - intros tr prompt code H. vm_compute in H. discriminate H.
  - reflexivity.
Defined.

(* ===================================================================== *)
(** ** The command with the client of [llm_client] *)
(* ===================================================================== *)

Lemma client_never_config (key_from_env : option pystr) (API_KEY : pystr)
    (remote : llm_client.request → llm_client.response) :
  or_else key_from_env API_KEY ≠ [] →
  never_config (client key_from_env API_KEY remote).
Proof.
  intros Hkey tr prompt e. unfold client, llm_client.generate_code,
    llm_client._get_client.
  rewrite (get_api_key_returns _ _ Hkey).
  by destruct (remote _) as [m|[|c l]].
Qed.

Lemma client_always_config (key_from_env : option pystr) (API_KEY : pystr)
    (remote : llm_client.request → llm_client.response) :
  or_else key_from_env API_KEY = [] →
  always_config (client key_from_env API_KEY remote).
Proof.
  intros Hkey tr prompt. unfold client, llm_client.generate_code,
    llm_client._get_client, llm_client._get_api_key.
  rewrite Hkey. simpl. eauto.
Qed.

Lemma always_config_never_text
    (generate_code : list event → pystr → outcome pystr) :
  always_config generate_code → never_text generate_code.
Proof.
  intros Hall tr prompt code H. destruct (Hall tr prompt) as (e & He). congruence.
Qed.

Lemma app_calls (app : AppConfig) (w : world) (evs : list event) :
  calls_in ((if file_exists (serializers_path (path app)) w then []
             else [EvWriteText (serializers_path (path app)) header]) ++ evs)
  = calls_in evs.
Proof. rewrite calls_in_app. by destruct (file_exists _ w). Qed.

(** X15.  With a key configured, the units of a collection that get past
    the [--model] filter are attempted one and all, each once, whatever
    the remote service does: no failure of a call ends the loop. *)
Theorem configured_client_attempts_every_unit
    (key_from_env : option pystr) (API_KEY : pystr)
    (remote : llm_client.request → llm_client.response)
    (app : AppConfig) (models : list Model) (flt : option pystr) (w : world) :
  or_else key_from_env API_KEY ≠ [] →
  calls_in (new_events w
              (_generate_for_app (client key_from_env API_KEY remote)
                                 app models flt w))
  = length (List.filter (passes_b flt) models).
Proof.
  intros Hkey.
  destruct (app_run (client key_from_env API_KEY remote) app models flt w)
    as (evs & Ht & _ & _ & Hnc & _).
  rewrite (new_events_app _ _ _ Ht), (app_calls app w).
  by apply Hnc, client_never_config.
Qed.

Lemma configured_client_attempts_every_unit_witness :
  let down := fun _ => llm_client.RemoteRaise (py "timeout") in
  calls_in (new_events empty_world
              (_generate_for_app (client None (py "sk-pasted") down)
                                 blog [Post; Order; Post] (Some (py "Post"))
                                 empty_world))
  = length (List.filter (passes_b (Some (py "Post"))) [Post; Order; Post]).
Proof. apply configured_client_attempts_every_unit. discriminate. Defined.

(** X16.  Without a key, a collection costs one call if one of its units
    gets past the [--model] filter, none otherwise, and its artifact is
    left as it was, or holds the header alone if it was missing. *)
Theorem missing_key_stops_each_collection
    (key_from_env : option pystr) (API_KEY : pystr)
    (remote : llm_client.request → llm_client.response)
    (app : AppConfig) (models : list Model) (flt : option pystr) (w : world) :
  or_else key_from_env API_KEY = [] →
  let file := serializers_path (path app) in
  let w' := _generate_for_app (client key_from_env API_KEY remote)
                              app models flt w in
  calls_in (new_events w w')
  = Nat.min 1 (length (List.filter (passes_b flt) models))
  ∧ fs w' !! file = Some (default header (fs w !! file)).
Proof.
  intros Hkey. cbn zeta.
  pose proof (client_always_config _ _ remote Hkey) as Hall.
  destruct (app_run (client key_from_env API_KEY remote) app models flt w)
    as (evs & Ht & Hu & _ & _ & Hac & Ha).
  cbn zeta in Ha. destruct Ha as (_ & _ & _ & Hf & Hr).
  rewrite (new_events_app _ _ _ Ht), (app_calls app w).
  split; [by apply Hac|].
  rewrite (unit_events_quiet _ _ _ _ _ _
             (always_config_never_text _ Hall) Hu) in Hr.
  destruct (fs w !! serializers_path (path app)) as [X|] eqn:HX.
  - rewrite (file_exists_true _ _ _ HX) in Hf.
    rewrite (Hf _ HX), Hr. cbn [List.map concat]. by rewrite app_nil_r.
  - rewrite (file_exists_false _ _ HX) in Hf.
    rewrite (Hf header), Hr; [cbn [List.map concat]; by rewrite app_nil_r|].
    simpl. by rewrite lookup_insert_eq.
Qed.

Lemma missing_key_stops_each_collection_witness :
  let w' := _generate_for_app
              (client (Some []) [] (answering (py "class S: pass")))
              blog [Post; Order] None empty_world in
  calls_in (new_events empty_world w')
  = Nat.min 1 (length (List.filter (passes_b None) [Post; Order]))
  ∧ fs w' !! serializers_path (path blog)
    = Some (default header (fs empty_world !! serializers_path (path blog))).
Proof.
  apply (missing_key_stops_each_collection (Some []) []
           (answering (py "class S: pass")) blog [Post; Order] None empty_world).
  reflexivity.
Defined.

(** X17.  The key [_get_api_key] returns is never empty: it is the
    environment variable when that is set and not empty, and the module
    constant otherwise. *)
Theorem get_api_key_result (key_from_env : option pystr) (API_KEY key : pystr) :
  llm_client._get_api_key key_from_env API_KEY = Return key →
  key ≠ []
  ∧ (key_from_env = Some key
     ∨ ((key_from_env = None ∨ key_from_env = Some []) ∧ key = API_KEY)).
Proof.
  unfold llm_client._get_api_key.
  destruct key_from_env as [[|c s]|]; simpl.
  - destruct API_KEY; simpl; intros [= <-]. split; [done|]. right. auto.
  - intros [= <-]. split; [done | by left].
  - destruct API_KEY; simpl; intros [= <-]. split; [done|]. right. auto.
Qed.

Lemma get_api_key_result_witness :
  let key_from_env : option pystr := Some [] in
  py "sk-pasted" ≠ []
  ∧ (key_from_env = Some (py "sk-pasted")
     ∨ ((key_from_env = None ∨ key_from_env = Some [])
        ∧ py "sk-pasted" = py "sk-pasted")).
Proof.
  apply (get_api_key_result (Some []) (py "sk-pasted") (py "sk-pasted")).
  reflexivity.
Defined.

(** X18.  [generate_code] sends at most one request, and none exactly when
    no key is configured.  The request carries the configured key, which
    is not empty, the given model and prompt, the fixed system instruction
    and the temperature 0.1.  The result is the content of the first
    choice, the empty string when that content is missing; a failure of
    the remote call or an answer without choices is an ordinary error. *)
Theorem generate_code_requests (key_from_env : option pystr) (API_KEY : pystr)
    (remote : llm_client.request → llm_client.response)
    (prompt model : pystr) :
  let run := llm_client.generate_code key_from_env API_KEY remote prompt model in
  length (snd run) ≤ 1
  ∧ (snd run = [] ↔ or_else key_from_env API_KEY = [])
  ∧ Forall (fun req =>
              llm_client.req_api_key req = or_else key_from_env API_KEY
              ∧ llm_client.req_api_key req ≠ []
              ∧ llm_client.req_model req = model
              ∧ llm_client.req_user req = prompt
              ∧ llm_client.req_system req = llm_client.system_instruction
              ∧ llm_client.req_temperature req = 0.1%float
              ∧ fst run
                = match remote req with
                  | llm_client.RemoteRaise msg => RaiseOther msg
                  | llm_client.Completion [] => RaiseOther (py "IndexError")
                  | llm_client.Completion (content :: _) =>
                      Return (or_else content [])
                  end)
           (snd run).
Proof.
  cbn zeta. unfold llm_client.generate_code, llm_client._get_client.
  destruct (decide (or_else key_from_env API_KEY = [])) as [Hnil|Hkey].
  - unfold llm_client._get_api_key. rewrite Hnil. simpl.
    split_and!; [lia | done | constructor].
  - rewrite (get_api_key_returns _ _ Hkey).
    destruct (remote _) as [m|[|c l]] eqn:Hr; simpl.
    all: split_and!; [lia | split; [done | by intros ?] |].
    all: constructor; [|constructor]; simpl; by rewrite Hr.
Qed.

(* ===================================================================== *)
(** ** The prompt *)
(* ===================================================================== *)







(* ===================================================================== *)
(** ** More on the output artifact *)
(* ===================================================================== *)

(** X20.  A generated text without its final line feed leaves the same
    files as the same text with it. *)
Theorem append_code_newline_insensitive (file code : pystr) (w : world) :
  endswith code LF = false →
  fs (append_code file (code ++ LF) w) = fs (append_code file code w).
Proof.
  intros Hno. unfold append_code.
  assert (Hyes : endswith (code ++ LF) LF = true)
    by (apply endswith_spec; by exists code).
  rewrite Hno, Hyes. simpl.
  rewrite !lookup_insert_eq, !insert_insert_eq. simpl.
  by rewrite <- !app_assoc.
Qed.

Lemma append_code_newline_insensitive_witness :
  fs (append_code (py "f") (py "class S: pass" ++ LF) empty_world)
  = fs (append_code (py "f") (py "class S: pass") empty_world).
Proof. apply append_code_newline_insensitive. reflexivity. Defined.

Lemma endswith_app (a s t : pystr) :
  endswith s t = true → endswith (a ++ s) t = true.
Proof.
  rewrite !endswith_spec. intros (u & ->). exists (a ++ u).
  by rewrite app_assoc.
Qed.

Lemma endswith_blocks (X : pystr) (texts : list pystr) :
  endswith X (LF ++ LF) = true →
  endswith (X ++ concat (List.map unit_block texts)) (LF ++ LF) = true.
Proof.
  revert X. induction texts as [|code texts IH]; intros X HX; simpl.
  - by rewrite app_nil_r.
  - rewrite app_assoc. apply IH. apply endswith_app. unfold unit_block.
    apply endswith_spec. eexists. by rewrite !app_assoc.
Qed.

(** X21.  The artifact of a collection ends with two line feeds after the
    generation, if it did before or was missing: what is appended next
    starts on a line of its own, after a blank line. *)
Theorem artifact_ends_with_separator
    (generate_code : list event → pystr → outcome pystr)
    (app : AppConfig) (models : list Model) (flt : option pystr) (w : world) :
  let file := serializers_path (path app) in
  (∀ X, fs w !! file = Some X → endswith X (LF ++ LF) = true) →
  ∃ Y, fs (_generate_for_app generate_code app models flt w) !! file = Some Y
       ∧ endswith Y (LF ++ LF) = true.
Proof.
  cbn zeta. intros Hends.
  destruct (app_run generate_code app models flt w)
    as (evs & _ & _ & _ & _ & _ & Ha).
  cbn zeta in Ha. destruct Ha as (_ & _ & _ & Hf & Hr).
  destruct (fs w !! serializers_path (path app)) as [X|] eqn:HX.
  - rewrite (file_exists_true _ _ _ HX) in Hf.
    rewrite (Hf _ HX), Hr. eexists. split; [done|].
    apply endswith_blocks. by apply Hends.
  - rewrite (file_exists_false _ _ HX) in Hf.
    rewrite (Hf header), Hr; [|simpl; by rewrite lookup_insert_eq].
    eexists. split; [done|]. apply endswith_blocks. reflexivity.
Qed.

Lemma artifact_ends_with_separator_witness :
  let file := serializers_path (py "/srv/blog") in
  let w := World {[ file := py "# notes" ++ LF ++ LF ]} [] in
  ∃ Y, fs (_generate_for_app
             (client (Some (py "sk")) [] (answering (py "class S: pass")))
             blog [Post] None w) !! file = Some Y
       ∧ endswith Y (LF ++ LF) = true.
Proof.
  apply (artifact_ends_with_separator
           (client (Some (py "sk")) [] (answering (py "class S: pass")))
           blog [Post] None
           (World {[ serializers_path (py "/srv/blog")
                     := py "# notes" ++ LF ++ LF ]} [])).
  intros X H. vm_compute in H. injection H as <-. reflexivity.
Defined.

(* ===================================================================== *)
(** ** The settings *)
(* ===================================================================== *)

(** X22.  What the settings mean for a run: a collection is selected when
    it is registered, outside [django.contrib], named by a non-empty
    [--app] filter if there is one, listed in [INCLUDE_APPS] if the project
    sets that key to a non-empty list, and not listed in [EXCLUDE_APPS] if
    the project sets that key to a list.  A key left out, or set to
    [None], constrains nothing, and so does the absence of the setting. *)
Theorem selection_by_settings (settings : option UserConfig)
    (registry : list AppConfig) (options : Options) (app : AppConfig) :
  In app (selection settings registry options)
  ↔ In app registry
    ∧ startswith (name app) (py "django.contrib") = false
    ∧ (∀ f, app_label options = Some f → f ≠ [] → label app = f)
    ∧ (∀ user_cfg allow,
         settings = Some user_cfg →
         user_INCLUDE_APPS user_cfg = Some (Some allow) →
         allow ≠ [] → In (label app) allow)
    ∧ (∀ user_cfg excluded,
         settings = Some user_cfg →
         user_EXCLUDE_APPS user_cfg = Some (Some excluded) →
         ¬ In (label app) excluded).
Proof.
  unfold selection. rewrite select_as_filter, filter_In.
  unfold keeps, is_contrib.
  rewrite !andb_true_iff, negb_true_iff, negb_true_iff, bool_decide_eq_false.
  rewrite elem_of_list_to_set, list_elem_of_In.
  assert (Hcli : (match app_label options with
                  | Some f => if truthy f then str_eqb (label app) f else true
                  | None => true
                  end = true)
                 ↔ ∀ f, app_label options = Some f → f ≠ [] → label app = f).
  { destruct (app_label options) as [f|]; [|by split].
    destruct (truthy f) eqn:Ht.
    - unfold str_eqb. rewrite bool_decide_eq_true. split.
      + by intros H f' [= <-] _.
      + intros H. apply H; [done|]. by apply truthy_true.
    - apply truthy_false in Ht as ->. split; [|done]. by intros _ f' [= <-]. }
  assert (Hinc : (match INCLUDE_APPS (get_config settings) with
                  | Some (x :: l) =>
                      bool_decide (label app ∈ (list_to_set (x :: l) : gset pystr))
                  | _ => true
                  end = true)
                 ↔ ∀ user_cfg allow, settings = Some user_cfg →
                     user_INCLUDE_APPS user_cfg = Some (Some allow) →
                     allow ≠ [] → In (label app) allow).
  { destruct settings as [[[[allow|]|] ex]|]; unfold get_config, DEFAULT_CONFIG;
      cbn [INCLUDE_APPS user_INCLUDE_APPS from_option id].
    - destruct allow as [|x l].
      + split; [|done]. by intros _ u a [= <-] [= <-].
      + rewrite bool_decide_eq_true, elem_of_list_to_set, list_elem_of_In.
        split.
        * by intros H u a [= <-] [= <-] _.
        * intros H. by apply (H _ _ eq_refl eq_refl).
    - split; [|done]. by intros _ u a [= <-].
    - split; [|done]. by intros _ u a [= <-].
    - by split. }
  assert (Hexc : ¬ In (label app) (default [] (EXCLUDE_APPS (get_config settings)))
                 ↔ ∀ user_cfg excluded, settings = Some user_cfg →
                     user_EXCLUDE_APPS user_cfg = Some (Some excluded) →
                     ¬ In (label app) excluded).
  { destruct settings as [[inc [[ex|]|]]|]; simpl.
    - split.
      + by intros H u e [= <-] [= <-].
      + intros H. by apply (H _ _ eq_refl eq_refl).
    - split; [|tauto]. by intros _ u e [= <-].
    - split; [|tauto]. by intros _ u e [= <-].
    - split; [|tauto]. done. }
  rewrite Hcli, Hinc, Hexc. tauto.
Qed.

(* ===================================================================== *)
(** ** Witnesses for the outcomes of a unit and for the map *)
(* ===================================================================== *)

Lemma config_error_stops_collection_witness :
  generate_loop no_key_client (py "blog") (serializers_path (py "/srv/blog"))
    None [Post; Order] empty_world
  = World (fs empty_world)
      (trace empty_world
       ++ [EvStdout NOTICE (MsgGenerating (py "blog") (model_name Post));
           EvGenerate (prompt_of (py "blog") Post)
                      (RaiseConfig llm_client.no_key_message);
           EvStdout ERROR (MsgException llm_client.no_key_message)]).
Proof.
  apply config_error_stops_collection.
  - by left.
  - reflexivity.
Defined.

Lemma other_error_continues_witness :
  let down := fun _ => llm_client.RemoteRaise (py "timeout") in
  let gen := client (Some (py "sk")) [] down in
  let file := serializers_path (py "/srv/blog") in
  generate_loop gen (py "blog") file None [Post; Order] empty_world
  = generate_loop gen (py "blog") file None [Order]
      (World (fs empty_world)
         (trace empty_world
          ++ [EvStdout NOTICE (MsgGenerating (py "blog") (model_name Post));
              EvGenerate (prompt_of (py "blog") Post)
                         (RaiseOther (py "timeout"));
              EvStdout ERROR (MsgOpenAIError (model_name Post) (py "timeout"))])).
Proof.
  apply (other_error_continues
           (client (Some (py "sk")) []
                   (fun _ => llm_client.RemoteRaise (py "timeout")))).
  - by left.
  - reflexivity.
Defined.

Lemma scan_map_without_empty_witness :
  In (fst (blog, [Post])) [blog; pages]
  ∧ snd (blog, [Post]) = get_models (fst (blog, [Post]))
  ∧ snd (blog, [Post]) ≠ [].
Proof.
  apply (scan_map_without_empty [blog; pages] empty_world (blog, [Post])).
  vm_compute. left. reflexivity.
Defined.
